(** * SerialLog: a serial poller with live plotting

    A shallow embedding of [SerialLog.py] and the properties of its
    sample buffers, response parser, poll loop, pause/resume/restart
    commands, plot layout and cursor tooltip.

    Conventions of the embedding.
    - Python [int] is [Z]; Python [float] is the kernel's binary64
      [float] (same IEEE 754 operations, round to nearest even).
    - Python [str] is [string]; a character is a code point below 256.
    - [collections.deque(maxlen=n)] is a list with its bound, the oldest
      element first.
    - [OrderedDict] is an association list in insertion order; a plain
      [dict] used for lookups only is a [gmap].
    - The object [self] of [PollSerial] is a record threaded through a
      small monad whose outcomes are: normal return, a raised exception,
      or a thread blocked for ever on [channels_lock].
    - What the operating system, the serial device, [float()], [str()] and
      the Tk font metrics answer is an input of the operation that asks. *)

From Stdlib Require Import ZArith String Ascii List Bool Floats Lia.
From stdpp Require Import gmap strings list fin_maps.
Import ListNotations.

Local Open Scope Z_scope.

(** ** Configuration constants *)

Definition MAX_POINTS : nat := 2000.
Definition GRID_LINES : Z := 5.
Definition LEGEND_FONT_SIZE : Z := 20.
Definition GRID_LABEL_FONT_SIZE : Z := 10.
Definition LEGEND_GAP : Z := 12.
Definition TOOLTIP_OFFSET : Z := 8.

(** ** Python numbers *)

Module Py.

(** [int(f)]: truncation toward zero; [ValueError] on NaN and
    [OverflowError] on an infinity. *)
Inductive Exn := ValueError | OverflowError | TypeError | KeyError.

Definition int_of_float (f : float) : Exn + Z :=
  match Prim2SF f with
  | S754_nan => inl ValueError
  | S754_infinity _ => inl OverflowError
  | S754_zero _ => inr 0
  | S754_finite s m e =>
      let mag := if 0 <=? e then Z.pos m * 2 ^ e else Z.pos m / 2 ^ (- e) in
      inr (if s then - mag else mag)
  end.

(** The conversion of an [int] operand in mixed arithmetic: the nearest
    float, ties to even (exact below 2^53 in magnitude). *)
Definition float_of_int (z : Z) : float :=
  SF2Prim (binary_normalize prec emax z 0 false).

(** [a / b] on two ints, for operands that are exact as floats. *)
Definition int_truediv (a b : Z) : float :=
  (float_of_int a / float_of_int b)%float.

(** [max(a, b)] on floats keeps [a] unless [b > a]. *)
Definition max2 (a b : float) : float :=
  if PrimFloat.ltb a b then b else a.

(** [max(l)] for a non-empty list of floats. *)
Definition max_list (l : list float) : option float :=
  match l with
  | [] => None
  | x :: l' => Some (fold_left max2 l' x)
  end.

(** [min(l)] and [max(l)] for a non-empty list of ints. *)
Definition min_ints (l : list Z) : option Z :=
  match l with
  | [] => None
  | x :: l' => Some (fold_left Z.min l' x)
  end.

Definition max_ints (l : list Z) : option Z :=
  match l with
  | [] => None
  | x :: l' => Some (fold_left Z.max l' x)
  end.

(** [str(z)] for an int. *)
Fixpoint digits_of_pos (fuel : nat) (n : Z) (acc : string) : string :=
  match fuel with
  | O => acc
  | S fuel' =>
      let acc' := String (ascii_of_nat (Z.to_nat (n mod 10) + 48)) acc in
      if n / 10 =? 0 then acc' else digits_of_pos fuel' (n / 10) acc'
  end.

Definition str_of_nonneg (n : Z) : string :=
  digits_of_pos (S (Z.to_nat (Z.log2 n))) n "".

Definition str_of_int (z : Z) : string :=
  if z <? 0 then "-" +:+ str_of_nonneg (- z) else str_of_nonneg z.

(** [format(f, '.<d>f')]: the decimal with [d] digits after the point
    nearest to the exact value of [f], ties to even. *)
Fixpoint zeros (n : nat) : string :=
  match n with O => "" | S n' => String "0" (zeros n') end.

Definition pad_zeros (width : nat) (s : string) : string :=
  zeros (width - String.length s) +:+ s.

Definition format_fixed (d : nat) (f : float) : string :=
  match Prim2SF f with
  | S754_nan => "nan"
  | S754_infinity s => if s then "-inf" else "inf"
  | S754_zero s =>
      (if s then "-" else "") +:+ "0" +:+
      (if d is O then "" else "." +:+ pad_zeros d "")
  | S754_finite s m e =>
      let scale := 10 ^ Z.of_nat d in
      let q :=
        if 0 <=? e then Z.pos m * 2 ^ e * scale
        else
          let num := Z.pos m * scale in
          let den := 2 ^ (- e) in
          let q0 := num / den in
          let r := num mod den in
          if (den <? 2 * r) || ((den =? 2 * r) && Z.odd q0) then q0 + 1 else q0 in
      (if s then "-" else "") +:+ str_of_nonneg (q / scale) +:+
      (if d is O then "" else "." +:+ pad_zeros d (str_of_nonneg (q mod scale)))
  end.

(** *** Strings

    [str.strip()] removes the characters for which [str.isspace()]
    holds; below code point 256 these are 9-13, 28-32, 133 and 160. *)

Definition is_space (c : ascii) : bool :=
  let n := nat_of_ascii c in
  ((9 <=? n) && (n <=? 13) || (28 <=? n) && (n <=? 32) || (n =? 133) || (n =? 160))%nat.

Definition is_digit (c : ascii) : bool :=
  let n := nat_of_ascii c in ((48 <=? n) && (n <=? 57))%nat.

Fixpoint lstrip (s : string) : string :=
  match s with
  | String c s' => if is_space c then lstrip s' else s
  | EmptyString => s
  end.

Fixpoint rstrip (s : string) : string :=
  match s with
  | String c s' =>
      match rstrip s' with
      | EmptyString => if is_space c then EmptyString else String c EmptyString
      | r => String c r
      end
  | EmptyString => s
  end.

Definition strip (s : string) : string := rstrip (lstrip s).

Definition lower (c : ascii) : ascii :=
  let n := nat_of_ascii c in
  if ((65 <=? n) && (n <=? 90))%nat then ascii_of_nat (n + 32) else c.

Fixpoint lower_str (s : string) : string :=
  match s with
  | String c s' => String (lower c) (lower_str s')
  | EmptyString => s
  end.

(** *** [float(s)]

    The grammar of the language reference: optional sign, then
    [inf], [infinity] or [nan] in any case, or a decimal number with an
    optional exponent, single underscores allowed between digits; white
    space around it is ignored. The value is the float nearest to the
    decimal, ties to even. *)

Definition digit_val (c : ascii) : Z := Z.of_nat (nat_of_ascii c) - 48.

(** [digit (["_"] digit)*]: the value read so far, the number of digits,
    and what follows. *)
Fixpoint digits_tail (s : string) (acc : Z) (n : Z) : Z * Z * string :=
  match s with
  | String c s' =>
      if is_digit c then digits_tail s' (10 * acc + digit_val c) (n + 1)
      else if Ascii.eqb c "_" then
        match s' with
        | String c' _ => if is_digit c' then digits_tail s' acc n else (acc, n, s)
        | EmptyString => (acc, n, s)
        end
      else (acc, n, s)
  | EmptyString => (acc, n, s)
  end.

Definition digitpart (s : string) (acc : Z) : option (Z * Z * string) :=
  match s with
  | String c _ => if is_digit c then Some (digits_tail s acc 0) else None
  | EmptyString => None
  end.

Definition sign_of (s : string) : bool * string :=
  match s with
  | String "-" s' => (true, s')
  | String "+" s' => (false, s')
  | _ => (false, s)
  end.

(** The float nearest to [n / d] (ties to even), for [n >= 0] and [d > 0]. *)
Definition round_ratio (n d : Z) : float :=
  if n =? 0 then 0%float
  else
    let k := Z.max 0 (64 + Z.log2 d - Z.log2 n) in
    let q := (n * 2 ^ k) / d in
    let r := (n * 2 ^ k) mod d in
    let m := 2 * q + (if r =? 0 then 0 else 1) in
    SF2Prim (binary_normalize prec emax m (- (k + 1)) false).

Definition decimal_value (digits exp10 : Z) : float :=
  if 0 <=? exp10 then round_ratio (digits * 10 ^ exp10) 1
  else round_ratio digits (10 ^ (- exp10)).

(** [floatnumber]: the mantissa digits and the decimal exponent. *)
Definition floatnumber (s : string) : option (Z * Z) :=
  let mant :=
    match digitpart s 0 with
    | Some (i, _, String "." r) =>
        match digitpart r i with
        | Some (v, nf, r') => Some (v, nf, r')
        | None => Some (i, 0, r)
        end
    | Some (i, _, r) => Some (i, 0, r)
    | None =>
        match s with
        | String "." r => digitpart r 0
        | _ => None
        end
    end in
  match mant with
  | None => None
  | Some (v, nf, EmptyString) => Some (v, - nf)
  | Some (v, nf, String c r) =>
      if Ascii.eqb (lower c) "e" then
        let (neg, r1) := sign_of r in
        match digitpart r1 0 with
        | Some (ex, _, EmptyString) => Some (v, (if neg then - ex else ex) - nf)
        | _ => None
        end
      else None
  end.

(** [float(s)] for a string; [None] where Python raises [ValueError]. *)
Definition float_of_str (s : string) : option float :=
  let (neg, body) := sign_of (strip s) in
  let signed (f : float) := if neg then (- f)%float else f in
  let low := lower_str body in
  if String.eqb low "inf" || String.eqb low "infinity" then Some (signed infinity)
  else if String.eqb low "nan" then Some nan
  else
    match floatnumber body with
    | Some (v, ex) => Some (signed (decimal_value v ex))
    | None => None
    end.

(** *** [str(f)] for a float

    The shortest decimal that reads back as [f] (the nearest to [f]
    among the shortest), printed in fixed notation when its decimal
    point position lies in (-4, 16] and with an exponent otherwise. *)

(** The scaled comparison of [c * 10^p] with [n / s]. *)
Definition dec_cmp (c p n s : Z) : comparison :=
  if 0 <=? p then (c * 10 ^ p * s ?= n) else (c * s ?= n * 10 ^ (- p)).

(** [floor (n / s / 10^p)]. *)
Definition dec_floor (p n s : Z) : Z :=
  if 0 <=? p then n / (s * 10 ^ p) else (n * 10 ^ (- p)) / s.

(** The largest [L] with [10^L <= n / s], searched upward from a lower estimate. *)
Fixpoint log10_from (fuel : nat) (L n s : Z) : Z :=
  match fuel with
  | O => L
  | S fuel' =>
      match dec_cmp 1 (L + 1) n s with
      | Gt => L
      | _ => log10_from fuel' (L + 1) n s
      end
  end.

Definition log10_floor (n s : Z) : Z :=
  let est := (Z.log2 n - Z.log2 s - 1) * 30102 / 100000 - 1 in
  log10_from 8 est n s.

Fixpoint strip_zeros (fuel : nat) (c p : Z) : Z * Z :=
  match fuel with
  | O => (c, p)
  | S fuel' => if (c mod 10 =? 0) && negb (c =? 0) then strip_zeros fuel' (c / 10) (p + 1) else (c, p)
  end.

(** The shortest decimal [c * 10^p] that reads back as the float
    [m * 2^e], the nearest to it among the shortest. *)
Fixpoint shortest_from (fuel : nat) (n : Z) (L X S Mm Mp : Z) (closed : bool) : Z * Z :=
  let p := L - n + 1 in
  let lo := dec_floor p X S in
  let hi := lo + 1 in
  let inside (c : Z) :=
    match dec_cmp c p (X - Mm) S, dec_cmp c p (X + Mp) S with
    | Lt, _ => false
    | _, Gt => false
    | Eq, _ => closed
    | _, Eq => closed
    | Gt, Lt => true
    end in
  let pick :=
    match inside lo, inside hi with
    | true, true =>
        match dec_cmp (2 * lo + 1) p (2 * X) S with
        | Lt => Some hi
        | Gt => Some lo
        | Eq => Some (if Z.even lo then lo else hi)
        end
    | true, false => Some lo
    | false, true => Some hi
    | false, false => None
    end in
  match pick, fuel with
  | Some c, _ => (c, p)
  | None, O => (lo, p)
  | None, S fuel' => shortest_from fuel' (n + 1) L X S Mm Mp closed
  end.

Definition shortest_digits (m : positive) (e : Z) : Z * Z :=
  let boundary := (Z.pos m =? 2 ^ 52) && (-1074 <? e) in
  let X := if 0 <=? e then 4 * Z.pos m * 2 ^ e else 4 * Z.pos m in
  let S := if 0 <=? e then 4 else 4 * 2 ^ (- e) in
  let u := if 0 <=? e then 2 ^ e else 1 in
  let Mp := 2 * u in
  let Mm := if boundary then u else 2 * u in
  let L := log10_floor X S in
  let '(c, p) := shortest_from 17 1 L X S Mm Mp (Z.even (Z.pos m)) in
  strip_zeros 20 c p.

(** [repr(f)], which is also [str(f)] and what an f-string prints. *)
Definition str_of_float (f : float) : string :=
  match Prim2SF f with
  | S754_nan => "nan"
  | S754_infinity s => if s then "-inf" else "inf"
  | S754_zero s => if s then "-0.0" else "0.0"
  | S754_finite s m e =>
      let '(c, p) := shortest_digits m e in
      let ds := str_of_nonneg c in
      let n := Z.of_nat (String.length ds) in
      let decpt := n + p in
      let body :=
        if (decpt <=? -4) || (16 <? decpt) then
          let ex := decpt - 1 in
          let exs := str_of_nonneg (Z.abs ex) in
          String.substring 0 1 ds +:+
          (if n =? 1 then "" else "." +:+ String.substring 1 (String.length ds - 1) ds) +:+
          "e" +:+ (if ex <? 0 then "-" else "+") +:+
          (if (String.length exs <? 2)%nat then "0" +:+ exs else exs)
        else if decpt <=? 0 then
          "0." +:+ zeros (Z.to_nat (- decpt)) +:+ ds
        else if n <=? decpt then
          ds +:+ zeros (Z.to_nat (decpt - n)) +:+ ".0"
        else
          String.substring 0 (Z.to_nat decpt) ds +:+ "." +:+
          String.substring (Z.to_nat decpt) (String.length ds - Z.to_nat decpt) ds in
      (if s then "-" else "") +:+ body
  end.

End Py.

(** ** [collections.deque] with [maxlen] *)

Module Deque.

Record deque (A : Type) := mk { items : list A; maxlen : nat }.
Arguments mk {A} _ _.
Arguments items {A} _.
Arguments maxlen {A} _.

Definition new {A} (n : nat) : deque A := mk [] n.

(** [d.append(x)]: the item is added on the right, and a deque grown
    beyond [maxlen] drops its leftmost item. *)
Definition append {A} (d : deque A) (x : A) : deque A :=
  let l := items d ++ [x] in
  mk (if (maxlen d <? length l)%nat then tl l else l) (maxlen d).

Definition clear {A} (d : deque A) : deque A := mk [] (maxlen d).

Definition len {A} (d : deque A) : nat := length (items d).

End Deque.

Export Deque (deque).

(** ** Helpers *)

Definition try_float (x : string) : float :=
  match Py.float_of_str x with
  | Some f => f
  | None => 0%float
  end.

(** The character class [[0-9A-Za-z\.\-]] of the value group. *)
Definition is_value_char (c : ascii) : bool :=
  let n := nat_of_ascii c in
  ((48 <=? n) && (n <=? 57) || (65 <=? n) && (n <=? 90) ||
   (97 <=? n) && (n <=? 122) || (n =? 46) || (n =? 45))%nat.

(** The longest prefix of characters in a class, and the rest. *)
Fixpoint span (p : ascii -> bool) (s : string) : string * string :=
  match s with
  | String c s' =>
      if p c then let (a, b) := span p s' in (String c a, b) else (EmptyString, s)
  | EmptyString => (EmptyString, EmptyString)
  end.

(** One match of [\$(\d+):([0-9A-Za-z\.\-]+)] at the start of [s]: both
    groups are greedy and nothing after either can give a character back,
    so each takes the longest run. *)
Definition match_token (s : string) : option (string * string) :=
  match s with
  | String "$" r =>
      match span Py.is_digit r with
      | (String d ds, String ":" r2) =>
          match span is_value_char r2 with
          | (String v vs, _) => Some (String d ds, String v vs)
          | _ => None
          end
      | _ => None
      end
  | _ => None
  end.

(** [re.findall]: matches from left to right, the search resuming where
    the last match ended; [skip] counts the characters of that match still
    to pass over. *)
Fixpoint findall_from (skip : nat) (s : string) : list (string * string) :=
  match s with
  | EmptyString => []
  | String _ s' =>
      match skip with
      | S k => findall_from k s'
      | O =>
          match match_token s with
          | Some (a, v) =>
              (a, v) :: findall_from (String.length a + 1 + String.length v) s'
          | None => findall_from 0 s'
          end
      end
  end.

(** [s[:s.rfind(',')]] when [s] has a comma. *)
Fixpoint before_last_comma (s : string) : option string :=
  match s with
  | EmptyString => None
  | String c s' =>
      match before_last_comma s' with
      | Some p => Some (String c p)
      | None => if Ascii.eqb c "," then Some EmptyString else None
      end
  end.

Definition parse_response (resp : string) : list (string * string) :=
  if String.eqb resp "" then []
  else
    let s := Py.strip resp in
    let s := match before_last_comma s with Some p => p | None => s end in
    findall_from 0 s.

(** [dict(pairs)]: a later pair replaces an earlier one with its key. *)
Definition parse_response_dict (resp : string) : gmap string string :=
  foldl (fun m kv => <[fst kv := snd kv]> m) ∅ (parse_response resp).

(** ** Channels *)

Record Channel := mkChannel {
  addr : string;
  xs : deque Z;
  ys : deque float;
  vals : deque float
}.

(** The dict literal of [__init__] and [add_channel_if_missing]. *)
Definition new_channel_with (cap : nat) (a : string) : Channel :=
  mkChannel a (Deque.new cap) (Deque.new cap) (Deque.new cap).

Definition new_channel (a : string) : Channel := new_channel_with MAX_POINTS a.

(** The three appends of one sample in [poll_loop]. *)
Definition channel_append (ch : Channel) (timestamp_ms : Z) (val : string) : Channel :=
  mkChannel (addr ch)
    (Deque.append (xs ch) timestamp_ms)
    (Deque.append (ys ch) (PrimFloat.abs (try_float val)))
    (Deque.append (vals ch) (try_float val)).

(** The three clears of [restart_polling]. *)
Definition channel_clear (ch : Channel) : Channel :=
  mkChannel (addr ch) (Deque.clear (xs ch)) (Deque.clear (ys ch)) (Deque.clear (vals ch)).

(** The ordered registry [self.channels]. *)
Fixpoint channels_get (name : string) (chs : list (string * Channel)) : option Channel :=
  match chs with
  | [] => None
  | (n, ch) :: rest => if String.eqb n name then Some ch else channels_get name rest
  end.

(** [self.channels[name] = ch]: an existing key keeps its place. *)
Fixpoint channels_set (name : string) (ch : Channel) (chs : list (string * Channel))
  : list (string * Channel) :=
  match chs with
  | [] => [(name, ch)]
  | (n, c) :: rest =>
      if String.eqb n name then (n, ch) :: rest else (n, c) :: channels_set name ch rest
  end.

(** The first channel name whose [addr] is the given one. *)
Fixpoint channels_find_addr (a : string) (chs : list (string * Channel)) : option string :=
  match chs with
  | [] => None
  | (n, ch) :: rest => if String.eqb (addr ch) a then Some n else channels_find_addr a rest
  end.

(** ** Canvas items *)

Inductive Font := Arial (size : Z).

Inductive Item :=
| Rectangle (x0 y0 x1 y1 : Z) (fill outline : string)
| Line (x0 y0 x1 y1 : Z) (fill : string) (width : Z) (dash : option (Z * Z))
| Text (x y : Z) (anchor text fill : string) (font : Font).

(** What Tk answers for [font.measure(text)] and
    [font.metrics('linespace')]. *)
Class FontMetrics := {
  measure : Font -> string -> Z;
  linespace : Font -> Z
}.

(** ** The poller object *)

Inductive Thread := ThreadObj (id : nat) (alive : bool).

Record PollSerial := mkPollSerial {
  request_str : option string;
  cell_list : list (string * string);
  channels : list (string * Channel);
  colors : gmap string string;
  next_color : nat;
  channels_lock : bool;              (* held or free *)
  start_time : option float;
  pause_accum : float;
  pause_start : option float;
  paused : bool;
  stop_event : bool;
  poll_thread : option Thread;
  ser_writes : list (string * bool); (* requests written, and whether the write went through *)
  ser_reads : nat;                   (* calls of read_all_response *)
  log_file : option (list string);   (* rows written by this run *)
  canvas : list Item                 (* items on the canvas, in creation order *)
}.

Definition set_channels (v : list (string * Channel)) (s : PollSerial) : PollSerial :=
  mkPollSerial (request_str s) (cell_list s) v (colors s) (next_color s)
    (channels_lock s) (start_time s) (pause_accum s) (pause_start s) (paused s)
    (stop_event s) (poll_thread s) (ser_writes s) (ser_reads s) (log_file s) (canvas s).

Definition set_colors (c : gmap string string) (n : nat) (s : PollSerial) : PollSerial :=
  mkPollSerial (request_str s) (cell_list s) (channels s) c n
    (channels_lock s) (start_time s) (pause_accum s) (pause_start s) (paused s)
    (stop_event s) (poll_thread s) (ser_writes s) (ser_reads s) (log_file s) (canvas s).

Definition set_lock (b : bool) (s : PollSerial) : PollSerial :=
  mkPollSerial (request_str s) (cell_list s) (channels s) (colors s) (next_color s)
    b (start_time s) (pause_accum s) (pause_start s) (paused s)
    (stop_event s) (poll_thread s) (ser_writes s) (ser_reads s) (log_file s) (canvas s).

Definition set_clock (t0 : option float) (acc : float) (ps : option float) (p : bool)
    (s : PollSerial) : PollSerial :=
  mkPollSerial (request_str s) (cell_list s) (channels s) (colors s) (next_color s)
    (channels_lock s) t0 acc ps p
    (stop_event s) (poll_thread s) (ser_writes s) (ser_reads s) (log_file s) (canvas s).

Definition set_stop_event (b : bool) (s : PollSerial) : PollSerial :=
  mkPollSerial (request_str s) (cell_list s) (channels s) (colors s) (next_color s)
    (channels_lock s) (start_time s) (pause_accum s) (pause_start s) (paused s)
    b (poll_thread s) (ser_writes s) (ser_reads s) (log_file s) (canvas s).

Definition set_poll_thread (t : option Thread) (s : PollSerial) : PollSerial :=
  mkPollSerial (request_str s) (cell_list s) (channels s) (colors s) (next_color s)
    (channels_lock s) (start_time s) (pause_accum s) (pause_start s) (paused s)
    (stop_event s) t (ser_writes s) (ser_reads s) (log_file s) (canvas s).

Definition set_serial (w : list (string * bool)) (r : nat) (s : PollSerial) : PollSerial :=
  mkPollSerial (request_str s) (cell_list s) (channels s) (colors s) (next_color s)
    (channels_lock s) (start_time s) (pause_accum s) (pause_start s) (paused s)
    (stop_event s) (poll_thread s) w r (log_file s) (canvas s).

Definition set_log_file (l : option (list string)) (s : PollSerial) : PollSerial :=
  mkPollSerial (request_str s) (cell_list s) (channels s) (colors s) (next_color s)
    (channels_lock s) (start_time s) (pause_accum s) (pause_start s) (paused s)
    (stop_event s) (poll_thread s) (ser_writes s) (ser_reads s) l (canvas s).

Definition set_canvas (c : list Item) (s : PollSerial) : PollSerial :=
  mkPollSerial (request_str s) (cell_list s) (channels s) (colors s) (next_color s)
    (channels_lock s) (start_time s) (pause_accum s) (pause_start s) (paused s)
    (stop_event s) (poll_thread s) (ser_writes s) (ser_reads s) (log_file s) c.

(** ** The monad of methods

    A method call on [self] returns normally, raises, or never returns
    because it waits for [channels_lock], a [threading.Lock], which the
    calling thread cannot take twice. *)

Inductive Outcome (A : Type) :=
| Ok (a : A) (s : PollSerial)
| Raised (e : Py.Exn) (s : PollSerial)
| Blocked (s : PollSerial).
Arguments Ok {A} _ _.
Arguments Raised {A} _ _.
Arguments Blocked {A} _.

Definition M (A : Type) := PollSerial -> Outcome A.

Definition ret {A} (a : A) : M A := fun s => Ok a s.

Definition bind {A B} (m : M A) (f : A -> M B) : M B :=
  fun s =>
    match m s with
    | Ok a s' => f a s'
    | Raised e s' => Raised e s'
    | Blocked s' => Blocked s'
    end.

Declare Scope method_scope.
Delimit Scope method_scope with M.
Bind Scope method_scope with M.
Notation "'let*' x ':=' m 'in' k" := (bind m (fun x => k))
  (at level 10, x binder, m at level 100, k at level 200) : method_scope.
Notation "m ;; k" := (bind m (fun _ => k))
  (at level 100, k at level 200, right associativity) : method_scope.
Local Open Scope method_scope.

Definition get : M PollSerial := fun s => Ok s s.
Definition modify (f : PollSerial -> PollSerial) : M unit := fun s => Ok tt (f s).
Definition raise {A} (e : Py.Exn) : M A := fun s => Raised e s.

(** [for x in l: body x]. *)
Fixpoint for_each {A} (l : list A) (body : A -> M unit) : M unit :=
  match l with
  | [] => ret tt
  | x :: l' => body x ;; for_each l' body
  end.

(** [with self.channels_lock: body]: the lock is taken first, waiting for
    ever when it is held, and released however the body ends. *)
Definition with_lock {A} (body : M A) : M A :=
  fun s =>
    if channels_lock s then Blocked s
    else
      match body (set_lock true s) with
      | Ok a s' => Ok a (set_lock false s')
      | Raised e s' => Raised e (set_lock false s')
      | Blocked s' => Blocked s'
      end.

(** The final state of an outcome. *)
Definition state_of {A} (o : Outcome A) : PollSerial :=
  match o with
  | Ok _ s | Raised _ s | Blocked s => s
  end.

(** ** Construction *)

Definition nl : string := String (ascii_of_nat 10) EmptyString.

(** Truth value of an optional string ([None] and [''] are false). *)
Definition truthy (o : option string) : bool :=
  match o with
  | Some s => negb (String.eqb s "")
  | None => false
  end.

(** [token.split(':', 1)] when the token has a colon. *)
Fixpoint split_colon (s : string) : option (string * string) :=
  match s with
  | EmptyString => None
  | String c s' =>
      if Ascii.eqb c ":" then Some (EmptyString, s')
      else
        match split_colon s' with
        | Some (a, b) => Some (String c a, b)
        | None => None
        end
  end.

Definition parse_cells (cells : list string) : list (string * string) :=
  flat_map (fun token =>
    match split_colon token with
    | Some (name, a) => [(Py.strip name, Py.strip a)]
    | None =>
        let a := Py.strip token in
        if String.eqb a "" then [] else [(a, a)]
    end) cells.

Fixpoint join (sep : string) (l : list string) : string :=
  match l with
  | [] => ""
  | [x] => x
  | x :: l' => x +:+ sep +:+ join sep l'
  end.

Definition concat_str (l : list string) : string := fold_right String.append "" l.

Record Args := mkArgs {
  arg_request_str : option string;
  arg_cells : list string;
  arg_file : option string
}.

(** How opening the log file went: it failed, or the file was opened and
    did or did not exist before. *)
Inductive LogOpen := OpenFails | Opened (existed : bool).

Definition log_header (req : option string) (cells : list (string * string)) : string :=
  if truthy req then "Time_ms, Values" +:+ nl
  else "Time_ms" +:+ concat_str (map (fun c => ", " +:+ fst c) cells) +:+ nl.

Definition open_log_file (req : option string) (cells : list (string * string))
    (o : LogOpen) : option (list string) :=
  match o with
  | OpenFails => None
  | Opened existed => Some (if existed then [] else [log_header req cells])
  end.

Definition init (args : Args) (o : LogOpen) : PollSerial :=
  let req := arg_request_str args in
  let cells := if truthy req then [] else parse_cells (arg_cells args) in
  let chans :=
    if truthy req then []
    else fold_left (fun acc c => channels_set (fst c) (new_channel (snd c)) acc) cells [] in
  mkPollSerial req cells chans ∅ 0%nat false None 0%float None false false None [] 0%nat
    (match arg_file args with
     | Some f => if String.eqb f "" then None else open_log_file req cells o
     | None => None
     end)
    [].

(** ** Colors and channel registration *)

Definition color_cycle : list string :=
  ["#e6194b"; "#3cb44b"; "#ffe119"; "#4363d8"; "#f58231";
   "#911eb4"; "#46f0f0"; "#f032e6"; "#bcf60c"; "#fabebe";
   "#008080"; "#e6beff"; "#9a6324"; "#fffac8"; "#800000"].

Definition assign_color (name : string) : M string :=
  let* s := get in
  match colors s !! name with
  | Some c => ret c
  | None =>
      let c := nth (next_color s mod length color_cycle) color_cycle "" in
      modify (set_colors (<[name := c]> (colors s)) (S (next_color s))) ;;
      ret c
  end.

Definition add_channel_if_missing (name a : string) : M unit :=
  with_lock (
    let* s := get in
    match channels_get name (channels s) with
    | Some _ => ret tt
    | None => modify (set_channels (channels_set name (new_channel a) (channels s)))
    end).

(** ** Transport and log *)

(** What the serial port does during one cycle: whether a write goes
    through, and what [read_all_response] finds ([None]: the port raised;
    [Some s]: the decoded bytes that were waiting, [''] for none). *)
Record SerialIO := mkSerialIO {
  write_ok : string -> bool;
  rx : option string
}.

Definition send_request (io : SerialIO) (s : string) : M unit :=
  modify (fun st => set_serial (ser_writes st ++ [(s, write_ok io s)]) (ser_reads st) st).

Definition read_all_response (io : SerialIO) : M string :=
  modify (fun st => set_serial (ser_writes st) (S (ser_reads st)) st) ;;
  ret (match rx io with Some s => s | None => "" end).

Definition log_cycle_cellmode (timestamp_ms : Z) (parsed_dict : gmap string string) : M unit :=
  let* s := get in
  match log_file s with
  | None => ret tt
  | Some rows =>
      let vals := map (fun c => default "0" (parsed_dict !! snd c)) (cell_list s) in
      let row := Py.str_of_int timestamp_ms +:+
                 concat_str (map (fun v => ", " +:+ v) vals) +:+ nl in
      modify (set_log_file (Some (rows ++ [row])))
  end.

Definition log_cycle_querymode (timestamp_ms : Z) (parsed_ordered : list (string * string))
  : M unit :=
  let* s := get in
  match log_file s with
  | None => ret tt
  | Some rows =>
      let row :=
        match parsed_ordered with
        | [] => Py.str_of_int timestamp_ms +:+ ", " +:+ nl
        | _ => Py.str_of_int timestamp_ms +:+ ", " +:+
               join ", " (map snd parsed_ordered) +:+ nl
        end in
      modify (set_log_file (Some (rows ++ [row])))
  end.

(** ** The poll loop *)

(** [ch = self.channels[name]] followed by the three appends on it. *)
Definition append_sample (name : string) (timestamp_ms : Z) (val : string) : M unit :=
  let* s := get in
  match channels_get name (channels s) with
  | None => raise Py.KeyError
  | Some ch =>
      modify (set_channels (channels_set name (channel_append ch timestamp_ms val) (channels s)))
  end.

(** [int((now - self.start_time - self.pause_accum) * 1000)]. *)
Definition cycle_timestamp (now : float) : M Z :=
  let* s := get in
  match start_time s with
  | None => raise Py.TypeError
  | Some t0 =>
      match Py.int_of_float ((now - t0 - pause_accum s) * 1000)%float with
      | inl e => raise e
      | inr z => ret z
      end
  end.

(** The body of the request-mode [for addr, val in parsed]. *)
Definition store_parsed (timestamp_ms : Z) (p : string * string) : M unit :=
  let (a, val) := p in
  let* s := get in
  let* display_name :=
    match channels_find_addr a (channels s) with
    | Some nm => ret nm
    | None => add_channel_if_missing a a ;; ret a
    end in
  append_sample display_name timestamp_ms val.

(** One pass of the [while] body when the loop is neither stopped nor
    paused; [now] is the clock reading and [io] what the port does. *)
Definition poll_cycle (now : float) (io : SerialIO) : M unit :=
  let* s := get in
  let* timestamp_ms := cycle_timestamp now in
  if truthy (request_str s) then
    send_request io (default "" (request_str s) +:+ nl) ;;
    let* resp := read_all_response io in
    let parsed := parse_response resp in
    match parsed with
    | [] => ret tt
    | _ => with_lock (for_each parsed (store_parsed timestamp_ms))
    end ;;
    log_cycle_querymode timestamp_ms parsed
  else
    for_each (cell_list s) (fun c => send_request io ("?" +:+ snd c +:+ nl)) ;;
    let* resp := read_all_response io in
    let parsed_dict := parse_response_dict resp in
    with_lock (for_each (cell_list s) (fun c =>
      append_sample (fst c) timestamp_ms (default "0" (parsed_dict !! snd c)))) ;;
    log_cycle_cellmode timestamp_ms parsed_dict.

(** The loop over the passes of a schedule: a pass is skipped while
    [paused], and the loop ends when [stop_event] is set. *)
Fixpoint poll_passes (schedule : list (float * SerialIO)) : M unit :=
  match schedule with
  | [] => ret tt
  | (now, io) :: rest =>
      let* s := get in
      if stop_event s then ret tt
      else if paused s then poll_passes rest
      else poll_cycle now io ;; poll_passes rest
  end.

Definition poll_loop (now : float) (schedule : list (float * SerialIO)) : M unit :=
  let* s := get in
  match start_time s with
  | None => modify (set_clock (Some now) (pause_accum s) (pause_start s) (paused s))
  | Some _ => ret tt
  end ;;
  poll_passes schedule.

(** ** Start, pause, resume, restart *)

Definition thread_alive (s : PollSerial) : bool :=
  match poll_thread s with
  | Some (ThreadObj _ a) => a
  | None => false
  end.

(** [self.poll_thread = threading.Thread(...); self.poll_thread.start()]. *)
Definition spawn_thread : M unit :=
  modify (fun s =>
    let n := match poll_thread s with Some (ThreadObj i _) => S i | None => 1%nat end in
    set_poll_thread (Some (ThreadObj n true)) s).

Definition start_polling_thread (now : float) : M unit :=
  let* s := get in
  if thread_alive s then ret tt
  else
    match start_time s with
    | None => modify (set_clock (Some now) 0%float (pause_start s) (paused s))
    | Some _ => ret tt
    end ;;
    modify (set_stop_event false) ;;
    spawn_thread.

Definition pause_polling (now : float) : M unit :=
  let* s := get in
  if paused s then ret tt
  else modify (set_clock (start_time s) (pause_accum s) (Some now) true).

(** [now] and [now'] are the two clock readings of
    [time.perf_counter() - (self.pause_start or time.perf_counter())]. *)
Definition resume_polling (now now' : float) : M unit :=
  let* s := get in
  if negb (paused s) then
    if negb (thread_alive s) then start_polling_thread now else ret tt
  else
    let since :=
      match pause_start s with
      | Some p => if PrimFloat.eqb p 0 then now' else p
      | None => now'
      end in
    let dur := (now - since)%float in
    modify (set_clock (start_time s) (pause_accum s + dur)%float None false).

Definition restart_polling (now : float) : M unit :=
  let* s := get in
  (if thread_alive s then modify (set_stop_event true) else ret tt) ;;
  modify (set_stop_event false) ;;
  with_lock (modify (fun s => set_channels (map (fun nc => (fst nc, channel_clear (snd nc))) (channels s)) s)) ;;
  modify (set_clock (Some now) 0%float None false) ;;
  spawn_thread.

(** ** The rendering pass *)

Definition grid_font : Font := Arial GRID_LABEL_FONT_SIZE.
Definition legend_font : Font := Arial LEGEND_FONT_SIZE.

Definition create (it : Item) : M unit :=
  modify (fun s => set_canvas (canvas s ++ [it]) s).

Definition lift {A} (r : Py.Exn + A) : M A :=
  match r with
  | inl e => raise e
  | inr a => ret a
  end.

(** A loop that carries a local variable. *)
Fixpoint fold_m {A B} (l : list A) (acc : B) (body : B -> A -> M B) : M B :=
  match l with
  | [] => ret acc
  | x :: l' => let* acc' := body acc x in fold_m l' acc' body
  end.

(** [int(left + (xv - x_min) / (x_max - x_min) * (right - left))]. *)
Definition canvas_x (left right x_min x_max xv : Z) : Py.Exn + Z :=
  Py.int_of_float
    (Py.float_of_int left +
     Py.int_truediv (xv - x_min) (x_max - x_min) * Py.float_of_int (right - left))%float.

(** [int(bottom - (yv - y_min) / (y_max - y_min) * (bottom - top))]. *)
Definition canvas_y (top bottom : Z) (y_min y_max yv : float) : Py.Exn + Z :=
  Py.int_of_float
    (Py.float_of_int bottom -
     (yv - y_min) / (y_max - y_min) * Py.float_of_int (bottom - top))%float.

Fixpoint channel_points (left top right bottom x_min x_max : Z) (y_min y_max : float)
    (samples : list (Z * float)) : Py.Exn + list (Z * Z) :=
  match samples with
  | [] => inr []
  | (xv, real_v) :: rest =>
      match canvas_x left right x_min x_max xv with
      | inl e => inl e
      | inr x =>
          match canvas_y top bottom y_min y_max (PrimFloat.abs real_v) with
          | inl e => inl e
          | inr y =>
              match channel_points left top right bottom x_min x_max y_min y_max rest with
              | inl e => inl e
              | inr pts => inr ((x, y) :: pts)
              end
          end
      end
  end.

(** The Y domain of a channel: [y_min] is 0 and [y_max] the largest
    magnitude, 1 when that is 0. *)
Definition channel_y_max (ch : Channel) : float :=
  let ys_abs :=
    match Deque.items (ys ch) with
    | [] => [0%float]
    | l => map PrimFloat.abs l
    end in
  let y_max := default 1%float (Py.max_list ys_abs) in
  if PrimFloat.eqb y_max 0 then 1%float else y_max.

(** The value of gridline [i_line]: the band value, and for the topmost
    line the band value less half a step. *)
Definition band_value (y_min y_max : float) (i_line : Z) : float :=
  (y_min + Py.float_of_int i_line * (y_max - y_min) / Py.float_of_int GRID_LINES)%float.

Definition grid_value (y_min y_max : float) (i_line : Z) : float :=
  let step := ((y_max - y_min) / Py.float_of_int GRID_LINES)%float in
  let y_val := band_value y_min y_max i_line in
  if i_line =? GRID_LINES then Py.max2 y_min (y_val - step / 2)%float else y_val.

(** The overlap test of the probing loop, with its margin of one pixel. *)
Definition overlaps (placed : list (Z * Z)) (top_candidate bottom_candidate : Z) : bool :=
  existsb (fun tb =>
    negb ((bottom_candidate <? fst tb - 1) || (snd tb + 1 <? top_candidate))) placed.

(** The [while attempt < 50] loop; [fuel] is the number of passes left. *)
Fixpoint probe (fuel : nat) (attempt desired_top text_h : Z) (placed : list (Z * Z))
    (top_candidate : Z) : Z :=
  match fuel with
  | O => top_candidate
  | S fuel' =>
      if overlaps placed top_candidate (top_candidate + text_h) then
        let k := attempt / 2 + 1 in
        let top_candidate' :=
          if attempt mod 2 =? 0 then desired_top - k * (text_h + 2)
          else desired_top + k * (text_h + 2) in
        probe fuel' (attempt + 1) desired_top text_h placed top_candidate'
      else top_candidate
  end.

(** The rectangle [(top_candidate, bottom_candidate)] appended to
    [placed_label_rects] for a gridline at [y_canvas]. *)
Definition place_label (placed : list (Z * Z)) (y_canvas text_h top bottom : Z) : Z * Z :=
  let desired_top := y_canvas - text_h / 2 in
  let top_candidate := probe 50 0 desired_top text_h placed desired_top in
  let bottom_candidate := top_candidate + text_h in
  let '(top_candidate, bottom_candidate) :=
    if top_candidate <? top then (top, top + text_h)
    else (top_candidate, bottom_candidate) in
  if bottom <? bottom_candidate then (bottom - text_h, bottom)
  else (top_candidate, bottom_candidate).

Section Rendering.
Context `{FontMetrics}.

(** The body of [for i_line in range(GRID_LINES + 1)]. *)
Definition draw_gridline (left top right bottom : Z) (y_min y_max : float)
    (color : string) (placed : list (Z * Z)) (i_line : Z) : M (list (Z * Z)) :=
  let y_val := grid_value y_min y_max i_line in
  let* y_canvas := lift (canvas_y top bottom y_min y_max y_val) in
  create (Line left y_canvas right y_canvas "#444444" 1 (Some (4, 2))) ;;
  let txt := Py.format_fixed 2 y_val in
  let text_h := linespace grid_font + 2 in
  let r := place_label placed y_canvas text_h top bottom in
  create (Text (left - 6) (fst r + text_h / 2) "e" txt color grid_font) ;;
  ret (placed ++ [r]).

(** The body of the first [for name, ch in self.channels.items()]. *)
Definition draw_channel (left top right bottom x_min x_max : Z)
    (placed : list (Z * Z)) (nc : string * Channel) : M (list (Z * Z)) :=
  let (name, ch) := nc in
  match Deque.items (xs ch) with
  | [] => ret placed
  | _ =>
      let y_min := 0%float in
      let y_max := channel_y_max ch in
      let* pts := lift (channel_points left top right bottom x_min x_max y_min y_max
                          (combine (Deque.items (xs ch)) (Deque.items (vals ch)))) in
      let* color := assign_color name in
      for_each (combine pts (tl pts)) (fun seg =>
        create (Line (fst (fst seg)) (snd (fst seg)) (fst (snd seg)) (snd (snd seg))
                  color 2 None)) ;;
      fold_m (map Z.of_nat (seq 0 (S (Z.to_nat GRID_LINES)))) placed
        (draw_gridline left top right bottom y_min y_max color)
  end.

(** The text of a legend entry: [f"{name}: {last_val}"], where
    [last_val] is the int 0 for a channel without values. *)
Definition legend_text (name : string) (ch : Channel) : string :=
  name +:+ ": " +:+
  match last (Deque.items (vals ch)) with
  | Some v => Py.str_of_float v
  | None => "0"
  end.

(** The body of the legend loop. *)
Definition legend_entry (legend_y : Z) (legend_x : Z) (nc : string * Channel) : M Z :=
  let (name, ch) := nc in
  let* color := assign_color name in
  let text := legend_text name ch in
  create (Text legend_x legend_y "nw" text color legend_font) ;;
  ret (legend_x + (measure legend_font text + LEGEND_GAP)).

(** One call of [update_canvas] on a canvas [w] by [h]. *)
Definition update_canvas (w h : Z) : M unit :=
  modify (set_canvas []) ;;
  if (w <? 10) || (h <? 10) then ret tt
  else
    let left := 70 in
    let top := 20 in
    let right := w - 20 in
    let bottom := h - 70 in
    create (Rectangle left top right bottom "" "white") ;;
    with_lock (
      let* s := get in
      let all_x := flat_map (fun nc => Deque.items (xs (snd nc))) (channels s) in
      match Py.min_ints all_x, Py.max_ints all_x with
      | Some x_min, Some x_max0 =>
          let x_max := if x_min =? x_max0 then x_min + 1 else x_max0 in
          fold_m (channels s) [] (draw_channel left top right bottom x_min x_max) ;;
          create (Text (left - 60) (bottom + 18) "nw"
                    (Py.format_fixed 1 (Py.float_of_int x_min / 1000)%float +:+ " s")
                    "white" grid_font) ;;
          create (Text (right + 0) (bottom + 18) "ne"
                    (Py.format_fixed 1 (Py.float_of_int x_max / 1000)%float +:+ " s")
                    "white" grid_font) ;;
          fold_m (channels s) left (legend_entry (bottom + 6)) ;;
          ret tt
      | _, _ =>
          create (Text (left - 60) (bottom + 18) "nw" "" "white" grid_font)
      end).

End Rendering.

(** The guard of [on_mouse_move]: the cursor is in the plotting area. *)
Definition in_plot_area (x y w h : Z) : bool :=
  negb ((x <? 70) || (w - 20 <? x) || (y <? 20) || (h - 70 <? y)).

(** ** The tooltip *)

Module CanvasTooltip.

Record Tooltip := mkTooltip {
  bg_id : option Item;
  text_ids : list Item;
  bounds : option (Z * Z * Z * Z)
}.

Definition tooltip_font : Font := Arial 10.

Definition hide (t : Tooltip) : Tooltip := mkTooltip None [] None.

Definition contains (t : Tooltip) (x y : Z) : bool :=
  match bounds t with
  | None => false
  | Some (x0, y0, x1, y1) => (x0 <=? x) && (x <=? x1) && (y0 <=? y) && (y <=? y1)
  end.

(** The placement rectangle of [show], from the desired corner to the
    last adjustment. *)
Definition place (cursor_x cursor_y text_w total_h pad cw ch : Z) : Z * Z * Z * Z :=
  let x0 := cursor_x - TOOLTIP_OFFSET in
  let y0 := cursor_y - TOOLTIP_OFFSET in
  let x1 := x0 + text_w + pad * 2 in
  let y1 := y0 + total_h + pad * 2 in
  let dx := Z.max 0 (x1 - cw) in
  let dy := Z.max 0 (y1 - ch) in
  let x0 := x0 - dx in
  let x1 := x1 - dx in
  let y0 := y0 - dy in
  let y1 := y1 - dy in
  let '(x0, x1) := if x0 <? 0 then (x0 + - x0, x1 + - x0) else (x0, x1) in
  let '(y0, y1) := if y0 <? 0 then (y0 + - y0, y1 + - y0) else (y0, y1) in
  let '(x0, x1) :=
    if negb ((x0 <=? cursor_x) && (cursor_x <=? x1)) then
      let x0' := Z.max 0 (Z.min (cursor_x - TOOLTIP_OFFSET) (cw - (text_w + pad * 2))) in
      (x0', x0' + text_w + pad * 2)
    else (x0, x1) in
  let '(y0, y1) :=
    if negb ((y0 <=? cursor_y) && (cursor_y <=? y1)) then
      let y0' := Z.max 0 (Z.min (cursor_y - TOOLTIP_OFFSET) (ch - (total_h + pad * 2))) in
      (y0', y0' + total_h + pad * 2)
    else (y0, y1) in
  (x0, y0, x1, y1).

Fixpoint text_items (tx cur_y text_h : Z) (lines : list (string * string)) : list Item :=
  match lines with
  | [] => []
  | (s, col) :: rest =>
      Text tx cur_y "nw" s col tooltip_font :: text_items tx (cur_y + text_h) text_h rest
  end.

Section Show.
Context `{FontMetrics}.

(** [show] on a canvas [cw] by [ch]. *)
Definition show (cursor_x cursor_y : Z) (time_line : string)
    (channel_lines channel_colors : list string) (bg : string) (pad : Z)
    (cw ch : Z) (t : Tooltip) : Tooltip :=
  let lines :=
    (if String.eqb time_line "" then [] else [(time_line, "white")]) ++
    combine channel_lines channel_colors in
  match Py.max_ints (map (fun l => measure tooltip_font (fst l)) lines) with
  | None => hide t
  | Some text_w =>
      let text_h := linespace tooltip_font in
      let total_h := text_h * Z.of_nat (length lines) in
      let '(x0, y0, x1, y1) := place cursor_x cursor_y text_w total_h pad cw ch in
      mkTooltip (Some (Rectangle x0 y0 x1 y1 bg "#666666"))
        (text_items (x0 + pad) (y0 + pad) text_h lines)
        (Some (x0, y0, x1, y1))
  end.

End Show.

End CanvasTooltip.

(** * Vocabulary of the properties

    Predicates on channels and registries, the pure counterparts of the
    loops, the commands of a run, and the sample pollers, transports and
    font metrics that the examples below are evaluated on. *)

(** A well-formed channel: the three deques share one bound, hold at most
    [MAX_POINTS] items, have one length, and [ys] holds the magnitudes of
    [vals]. *)
Definition channel_cap (cap : nat) (ch : Channel) : Prop :=
  Deque.maxlen (xs ch) = cap /\ Deque.maxlen (ys ch) = cap /\ Deque.maxlen (vals ch) = cap.

Definition channel_aligned (ch : Channel) : Prop :=
  Deque.len (xs ch) = Deque.len (ys ch) /\
  Deque.len (ys ch) = Deque.len (vals ch) /\
  Deque.items (ys ch) = map PrimFloat.abs (Deque.items (vals ch)).

Definition channel_bounded (cap : nat) (ch : Channel) : Prop :=
  (Deque.len (xs ch) <= cap /\ Deque.len (ys ch) <= cap /\ Deque.len (vals ch) <= cap)%nat.

Definition channel_wf (cap : nat) (ch : Channel) : Prop :=
  channel_cap cap ch /\ channel_bounded cap ch /\ channel_aligned ch.

(** The operations on one channel's buffers. *)
Inductive BufferOp := OpAppend (timestamp_ms : Z) (val : string) | OpClear.

Definition apply_op (ch : Channel) (op : BufferOp) : Channel :=
  match op with
  | OpAppend t v => channel_append ch t v
  | OpClear => channel_clear ch
  end.

(** [push_sample] is what one pass of the append loop does to the
    registry when the channel is there. *)
Definition push_sample (name : string) (timestamp_ms : Z) (val : string)
    (chs : list (string * Channel)) : list (string * Channel) :=
  match channels_get name chs with
  | Some ch => channels_set name (channel_append ch timestamp_ms val) chs
  | None => chs
  end.

Definition registered (name : string) (chs : list (string * Channel)) : Prop :=
  is_Some (channels_get name chs).

(** The value a cell gets in a cycle: what the parsed response holds for
    its address, and ['0'] otherwise. *)
Definition cell_value (io : SerialIO) (a : string) : string :=
  default "0"
    (parse_response_dict (match rx io with Some r => r | None => "" end) !! a).

Definition cell_row (timestamp_ms : Z) (io : SerialIO) (cells : list (string * string)) : string :=
  Py.str_of_int timestamp_ms +:+
  concat_str (map (fun v => ", " +:+ v) (map (fun c => cell_value io (snd c)) cells)) +:+ nl.

Definition io_dead : SerialIO := mkSerialIO (fun _ => false) None.

Definition cells_ab : PollSerial :=
  state_of (start_polling_thread 100
              (init (mkArgs None ["A:10"; "B:20"] (Some "log.csv")) (Opened false))).

Definition request_mode : PollSerial :=
  state_of (start_polling_thread 100
              (init (mkArgs (Some "?all") [] (Some "log.csv")) (Opened false))).

Definition io_scenario_D : SerialIO := mkSerialIO (fun _ => true) (Some "$10:123$20:45,CRC").

Definition fresh_poller : PollSerial :=
  init (mkArgs None ["A:10"; "B:20"] None) OpenFails.

(** The buffers of every channel are empty. *)
Definition all_cleared (chs : list (string * Channel)) : Prop :=
  Forall (fun nc => Deque.items (xs (snd nc)) = [] /\ Deque.items (ys (snd nc)) = [] /\
                    Deque.items (vals (snd nc)) = []) chs.


Definition result_of {A} (o : Outcome A) : option A :=
  match o with
  | Ok a _ => Some a
  | _ => None
  end.


(** A sample of font metrics: a fixed-pitch font, 0.6 of its size wide per
    character and 1.5 of its size high per line. *)
Definition fixed_pitch : FontMetrics := {|
  measure := fun f s => match f with Arial sz => sz * 6 / 10 * Z.of_nat (String.length s) end;
  linespace := fun f => match f with Arial sz => sz * 3 / 2 end
|}.

(** The rectangle of a grid label, read back from the text item drawn for
    it: grid labels are the items anchored 'e'. *)
Definition label_rect (text_h : Z) (it : Item) : option (Z * Z) :=
  match it with
  | Text _ y anchor _ _ _ =>
      if String.eqb anchor "e" then Some (y - text_h / 2, y - text_h / 2 + text_h) else None
  | _ => None
  end.

Definition label_text (it : Item) : option string :=
  match it with
  | Text _ _ anchor txt _ _ => if String.eqb anchor "e" then Some txt else None
  | _ => None
  end.

(** Two label rectangles overlap when they share more than an edge. *)
Definition rects_overlap (r1 r2 : Z * Z) : bool :=
  (fst r1 <? snd r2) && (fst r2 <? snd r1).



(** The legend as the loop lays it out, for given colors. *)
Fixpoint legend_layout `{FontMetrics} (legend_y legend_x : Z) (chs : list (string * Channel))
    (cols : list string) : list Item :=
  match chs, cols with
  | (name, ch) :: chs', c :: cols' =>
      Text legend_x legend_y "nw" (legend_text name ch) c legend_font ::
      legend_layout legend_y
        (legend_x + (measure legend_font (legend_text name ch) + LEGEND_GAP)) chs' cols'
  | _, _ => []
  end.

Definition legend_end `{FontMetrics} (legend_x : Z) (chs : list (string * Channel)) : Z :=
  fold_left (fun x nc => x + (measure legend_font (legend_text (fst nc) (snd nc)) + LEGEND_GAP))
    chs legend_x.

Definition has_samples (nc : string * Channel) : bool :=
  match Deque.items (xs (snd nc)) with
  | [] => false
  | _ => true
  end.


Definition io_reply (r : string) : SerialIO := mkSerialIO (fun _ => true) (Some r).

(** Two channels with one sample each, of value 1. *)
Definition two_channels : PollSerial :=
  state_of (poll_cycle 100.5 (io_reply "$10:1$20:1,CRC") cells_ab).


(** The commands that change a poller: a pass of the poll loop, the
    three buttons, the start of the thread, and a rendering pass. *)
Inductive Command :=
| Cycle (now : float) (io : SerialIO)
| Start (now : float)
| Pause (now : float)
| Resume (now now' : float)
| Restart (now : float)
| Render (w h : Z).

Definition run `{FontMetrics} (c : Command) : M unit :=
  match c with
  | Cycle now io => poll_cycle now io
  | Start now => start_polling_thread now
  | Pause now => pause_polling now
  | Resume now now' => resume_polling now now'
  | Restart now => restart_polling now
  | Render w h => update_canvas w h
  end.

(** The states a poller can be in: as constructed, or where a command
    leaves it, be it by a return, an exception or a wait on the lock. *)
Inductive reachable `{FontMetrics} : PollSerial -> Prop :=
| reach_init args o : reachable (init args o)
| reach_step s c : reachable s -> reachable (state_of (run c s)).

(** A method keeps a property of the state, however it ends. *)
(** The states in which the window and its buttons exist: [start] has
    called [start_polling_thread] on the poller as constructed, and any
    commands have followed. *)
Inductive started `{FontMetrics} : PollSerial -> Prop :=
| started_start args o now : started (state_of (start_polling_thread now (init args o)))
| started_step s c : started s -> started (state_of (run c s)).


Definition keeps (P : PollSerial -> Prop) {A} (m : M A) : Prop :=
  forall s, P s -> P (state_of (m s)).

Definition registry_wf (s : PollSerial) : Prop :=
  Forall (fun nc => channel_wf MAX_POINTS (snd nc)) (channels s).


(** ** Further vocabulary *)

(** Every character of a string is in a class. *)
Fixpoint all_chars (p : ascii -> bool) (s : string) : bool :=
  match s with
  | EmptyString => true
  | String c s' => p c && all_chars p s'
  end.

Definition is_comma (c : ascii) : bool := Ascii.eqb c ",".

(** The response format of the docstring of [parse_response]: tokens
    [$<addr>:<value>] one after the other, then a comma and a checksum. *)
Definition token (p : string * string) : string :=
  "$" +:+ fst p +:+ ":" +:+ snd p.

Definition response_of (pairs : list (string * string)) (crc : string) : string :=
  concat_str (map token pairs) +:+ "," +:+ crc.

(** A pair as the pattern of [parse_response] can match it: a non-empty
    run of digits and a non-empty run of value characters. *)
Definition well_formed_pair (p : string * string) : bool :=
  negb (String.eqb (fst p) "") && all_chars Py.is_digit (fst p) &&
  negb (String.eqb (snd p) "") && all_chars is_value_char (snd p).

(** A cell-mode run: started, then a cycle answered for both cells. *)
Definition sample_run : PollSerial :=
  state_of (@run fixed_pitch (Cycle 100.5 (io_reply "$10:1$20:1,CRC"))
    (state_of (@run fixed_pitch (Start 100)
       (init (mkArgs None ["A:10"; "B:20"] (Some "log.csv")) (Opened false))))).

(** A request-mode run: started, then the cycle of scenario D. *)
Definition sample_request_run : PollSerial :=
  state_of (@run fixed_pitch (Cycle 100.5 io_scenario_D)
    (state_of (@run fixed_pitch (Start 100)
       (init (mkArgs (Some "?all") [] (Some "log.csv")) (Opened false))))).

(** The cell-mode run after a rendering pass on an 800 by 600 canvas. *)
Definition sample_rendered : PollSerial :=
  state_of (@run fixed_pitch (Render 800 600) sample_run).

(** The colors handed out to a list of names, one after the other. *)
Fixpoint assign_colors (names : list string) : M (list string) :=
  match names with
  | [] => ret []
  | n :: rest =>
      let* c := assign_color n in
      let* cs := assign_colors rest in
      ret (c :: cs)
  end.

(** The palette index counts the names that have a color, and every
    color handed out is one of the palette. *)
Definition palette_ok (s : PollSerial) : Prop :=
  next_color s = size (colors s) /\
  forall name col, colors s !! name = Some col -> In col color_cycle.

(** A method that neither takes the lock nor changes it: it never
    blocks, and leaves the lock as it found it. *)
Definition lock_neutral {A} (m : M A) : Prop :=
  forall s, (forall s', m s <> Blocked s') /\
            channels_lock (state_of (m s)) = channels_lock s.

(** What a rendering pass does not write: everything but the canvas, the
    colors and the lock. *)
Definition same_data (s s' : PollSerial) : Prop :=
  request_str s' = request_str s /\ cell_list s' = cell_list s /\
  channels s' = channels s /\ log_file s' = log_file s /\
  start_time s' = start_time s /\ pause_accum s' = pause_accum s /\
  pause_start s' = pause_start s /\ paused s' = paused s /\
  stop_event s' = stop_event s /\ poll_thread s' = poll_thread s /\
  ser_writes s' = ser_writes s /\ ser_reads s' = ser_reads s.

(** ** The mouse handler *)

(** [format(f, '.<p>g')]: [f] rounded to [p] significant digits (ties to
    even on its exact value), printed in fixed notation when the decimal
    exponent of the rounded value lies in [-4, p) and with an exponent
    otherwise; trailing zeros of the fraction are dropped, and the point
    with them when nothing is left. *)
Fixpoint drop_trailing_zeros (s : string) : string :=
  match s with
  | String c s' =>
      match drop_trailing_zeros s' with
      | EmptyString => if Ascii.eqb c "0" then EmptyString else String c EmptyString
      | r => String c r
      end
  | EmptyString => s
  end.

Definition with_fraction (int_part frac : string) : string :=
  match drop_trailing_zeros frac with
  | EmptyString => int_part
  | r => int_part +:+ "." +:+ r
  end.

Definition format_general (p : nat) (f : float) : string :=
  let P := Z.of_nat (Nat.max 1 p) in
  match Prim2SF f with
  | S754_nan => "nan"
  | S754_infinity s => if s then "-inf" else "inf"
  | S754_zero s => if s then "-0" else "0"
  | S754_finite s m e =>
      let n := if 0 <=? e then Z.pos m * 2 ^ e else Z.pos m in
      let d := if 0 <=? e then 1 else 2 ^ (- e) in
      let L := Py.log10_floor n d in
      let q := L - P + 1 in
      let lo := Py.dec_floor q n d in
      let c0 :=
        match Py.dec_cmp (2 * lo + 1) q (2 * n) d with
        | Lt => lo + 1
        | Gt => lo
        | Eq => if Z.even lo then lo else lo + 1
        end in
      let '(c, X) := if c0 =? 10 ^ P then (10 ^ (P - 1), L + 1) else (c0, L) in
      let ds := Py.str_of_nonneg c in
      let body :=
        if (X <? -4) || (P <=? X) then
          let exs := Py.str_of_nonneg (Z.abs X) in
          with_fraction (String.substring 0 1 ds)
            (String.substring 1 (String.length ds - 1) ds) +:+
          "e" +:+ (if X <? 0 then "-" else "+") +:+
          (if (String.length exs <? 2)%nat then "0" +:+ exs else exs)
        else if X <? 0 then
          with_fraction "0" (Py.zeros (Z.to_nat (- X - 1)) +:+ ds)
        else
          with_fraction (String.substring 0 (Z.to_nat (X + 1)) ds)
            (String.substring (Z.to_nat (X + 1)) (String.length ds - Z.to_nat (X + 1)) ds) in
      (if s then "-" else "") +:+ body
  end.

(** [min(range(len(xs)), key=lambda i: abs(xs[i] - x_val))]: the first
    index whose key is the least; [i] is the index of the head of the
    list still to look at. *)
Fixpoint nearest_from (x_val : float) (l : list Z) (i best : nat) (best_key : float) : nat :=
  match l with
  | [] => best
  | xv :: rest =>
      let k := PrimFloat.abs (Py.float_of_int xv - x_val)%float in
      if PrimFloat.ltb k best_key then nearest_from x_val rest (S i) i k
      else nearest_from x_val rest (S i) best best_key
  end.

Definition nearest_index (x_val : float) (l : list Z) : nat :=
  match l with
  | [] => 0%nat
  | xv :: rest =>
      nearest_from x_val rest 1 0 (PrimFloat.abs (Py.float_of_int xv - x_val)%float)
  end.

(** The index of the sample under the cursor, for a channel with
    samples at the times [l]. *)
Definition cursor_index (x left right : Z) (l : list Z) : nat :=
  match Py.min_ints l, Py.max_ints l with
  | Some x_min, Some x_max =>
      if x_min =? x_max then 0%nat
      else
        let x_val :=
          (Py.float_of_int x_min +
           Py.int_truediv (x - left) (right - left) * Py.float_of_int (x_max - x_min))%float in
        nearest_index x_val l
  | _, _ => 0%nat
  end.

(** The exceptions of the handler: two that [Py.Exn] does not have, and
    those it has. *)
Inductive HandlerExn := ZeroDivisionError | IndexError | PyExn (e : Py.Exn).

(** The loop [for name, ch in self.channels.items()] of the handler,
    with the lines and colors gathered so far. *)
Fixpoint tooltip_lines (x left right : Z) (chs : list (string * Channel))
    (channel_lines channel_colors : list string)
    : M (HandlerExn + list string * list string) :=
  match chs with
  | [] => ret (inr (channel_lines, channel_colors))
  | (name, ch) :: rest =>
      match Deque.items (xs ch) with
      | [] => tooltip_lines x left right rest channel_lines channel_colors
      | l =>
          let idx := cursor_index x left right l in
          match Deque.items (vals ch) !! idx with
          | None => ret (inl IndexError)
          | Some v =>
              let* color := assign_color name in
              tooltip_lines x left right rest
                (channel_lines ++ [name +:+ ": " +:+ format_general 3 v])
                (channel_colors ++ [color])
          end
      end
  end.

(** The block under [with self.channels_lock] of the handler: [None]
    where it returns for want of samples, else the time line, the channel
    lines and their colors. *)
Definition tooltip_content (x left right : Z)
    : M (HandlerExn + option (string * list string * list string)) :=
  let* s := get in
  let global_xs := flat_map (fun nc => Deque.items (xs (snd nc))) (channels s) in
  match Py.min_ints global_xs, Py.max_ints global_xs with
  | Some gx_min, Some gx_max0 =>
      let gx_max := if gx_min =? gx_max0 then gx_min + 1 else gx_max0 in
      if right - left =? 0 then ret (inl ZeroDivisionError)
      else
        let x_val_global :=
          (Py.float_of_int gx_min +
           Py.int_truediv (x - left) (right - left) * Py.float_of_int (gx_max - gx_min))%float in
        let time_s := (x_val_global / 1000)%float in
        let time_line := "Time: " +:+ Py.format_fixed 1 time_s +:+ " s" in
        let* r := tooltip_lines x left right (channels s) [] [] in
        match r with
        | inl e => ret (inl e)
        | inr (channel_lines, channel_colors) =>
            ret (inr (Some (time_line, channel_lines, channel_colors)))
        end
  | _, _ => ret (inr None)
  end.

(** The poller with the tooltip of its window. The rectangle and the
    texts of the tooltip are kept in the tooltip; [canvas] holds the items
    of the rendering pass. *)
Record Gui := mkGui {
  poller : PollSerial;
  tooltip : CanvasTooltip.Tooltip
}.

(** How a call of the handler ends: it returns, it raises, or it waits
    for the lock. *)
Inductive Handled :=
| Returned (g : Gui)
| Failed (e : HandlerExn) (g : Gui)
| Waiting (g : Gui).

Definition gui_of (r : Handled) : Gui :=
  match r with
  | Returned g | Failed _ g | Waiting g => g
  end.

(** [on_mouse_move] for a motion event at [(x, y)] on a canvas [w] by
    [h]. *)
Definition on_mouse_move `{FontMetrics} (x y w h : Z) (g : Gui) : Handled :=
  let left := 70 in
  let right := w - 20 in
  if negb (in_plot_area x y w h) then
    Returned (mkGui (poller g) (CanvasTooltip.hide (tooltip g)))
  else
    let t := tooltip g in
    let shown := match CanvasTooltip.bounds t with Some _ => true | None => false end in
    if shown && CanvasTooltip.contains t x y then Returned g
    else
      let t := if shown && negb (CanvasTooltip.contains t x y)
               then CanvasTooltip.hide t else t in
      match with_lock (tooltip_content x left right) (poller g) with
      | Blocked s => Waiting (mkGui s t)
      | Raised e s => Failed (PyExn e) (mkGui s t)
      | Ok (inl e) s => Failed e (mkGui s t)
      | Ok (inr None) s => Returned (mkGui s t)
      | Ok (inr (Some (time_line, channel_lines, channel_colors))) s =>
          match channel_lines with
          | [] => Returned (mkGui s t)
          | _ =>
              Returned (mkGui s
                (CanvasTooltip.show x y time_line channel_lines channel_colors
                   "#111111" 6 w h t))
          end
      end.

(** A motion event over the plot of the cell-mode run. *)
Definition sample_gui : Gui := mkGui sample_run (CanvasTooltip.mkTooltip None [] None).

(** * Properties *)

(** ** Sample buffers *)

Section DequeFacts.
Context {A : Type}.
Implicit Types (d : deque A) (l : list A) (x : A).

Lemma deque_maxlen_append d x : Deque.maxlen (Deque.append d x) = Deque.maxlen d.
Proof. reflexivity. Qed.

Lemma deque_maxlen_fold l d :
  Deque.maxlen (fold_left Deque.append l d) = Deque.maxlen d.
Proof.
  revert d. induction l as [|x l IH]; intros d; simpl.
  - reflexivity.
  - rewrite IH. reflexivity.
Qed.

Lemma fold_append_snoc l x d :
  fold_left Deque.append (l ++ [x]) d = Deque.append (fold_left Deque.append l d) x.
Proof. by rewrite fold_left_app. Qed.

Lemma tl_drop_snoc l x k :
  (k <= length l)%nat -> tl (drop k l ++ [x]) = drop (S k) (l ++ [x]).
Proof.
  revert k. induction l as [|y l IH]; intros k Hk; simpl in *.
  - assert (k = 0%nat) as -> by lia. reflexivity.
  - destruct k as [|k]; simpl.
    + by rewrite drop_0.
    + apply IH. lia.
Qed.

(** A deque holds the last [maxlen] items appended to it. *)
Lemma deque_items_fold n l :
  Deque.items (fold_left Deque.append l (Deque.new n)) = drop (length l - n) l.
Proof.
  induction l as [|x l IH] using rev_ind; [done|].
  rewrite fold_append_snoc. unfold Deque.append at 1.
  rewrite deque_maxlen_fold, IH. cbn [Deque.items Deque.maxlen Deque.new].
  rewrite !length_app, length_drop. cbn [length].
  destruct (Nat.ltb_spec n (length l - (length l - n) + 1)) as [Hlt|Hge].
  - rewrite tl_drop_snoc by lia.
    replace (length l + 1 - n)%nat with (S (length l - n)) by lia. done.
  - replace (length l + 1 - n)%nat with 0%nat by lia.
    replace (length l - n)%nat with 0%nat by lia. done.
Qed.

Lemma deque_len_fold n l :
  (Deque.len (fold_left Deque.append l (Deque.new n)) <= n)%nat.
Proof. unfold Deque.len. rewrite deque_items_fold, length_drop. lia. Qed.

(** Appending to a full deque drops exactly its oldest item. *)
Lemma deque_append_full x0 l x :
  Deque.items (Deque.append (Deque.mk (x0 :: l) (S (length l))) x) = l ++ [x].
Proof.
  unfold Deque.append. cbn [Deque.items Deque.maxlen].
  rewrite length_app. cbn [length app].
  destruct (Nat.ltb_spec (S (length l)) (S (length l) + 1)); [reflexivity | lia].
Qed.

End DequeFacts.

(** ** Channel invariants *)

Lemma deque_append_len {A} (d : deque A) x cap :
  Deque.maxlen d = cap -> (Deque.len d <= cap)%nat ->
  (Deque.len (Deque.append d x) <= cap)%nat.
Proof.
  unfold Deque.len, Deque.append. intros <- Hle. cbn [Deque.items].
  destruct (Nat.ltb_spec (Deque.maxlen d) (length (Deque.items d ++ [x]))) as [Hlt|Hge];
    [|lia].
  rewrite length_app in *. cbn [length] in *.
  destruct (Deque.items d) as [|y l]; cbn [app tl length] in *; [lia|].
  rewrite length_app. cbn [length]. lia.
Qed.

Lemma deque_append_len_eq {A B} (d : deque A) (e : deque B) x y :
  Deque.maxlen d = Deque.maxlen e -> Deque.len d = Deque.len e ->
  Deque.len (Deque.append d x) = Deque.len (Deque.append e y).
Proof.
  unfold Deque.len, Deque.append. intros Hm Hl. cbn [Deque.items].
  rewrite !length_app, Hm, Hl. cbn [length].
  destruct (_ <? _)%nat; [|by rewrite !length_app, Hl].
  destruct (Deque.items d), (Deque.items e); cbn in *; try discriminate; try lia.
  rewrite !length_app. cbn. lia.
Qed.

Lemma deque_append_map {A B} (f : A -> B) (d : deque A) (e : deque B) x :
  Deque.maxlen d = Deque.maxlen e -> Deque.items e = map f (Deque.items d) ->
  Deque.items (Deque.append e (f x)) = map f (Deque.items (Deque.append d x)).
Proof.
  unfold Deque.append. intros Hm Hi. cbn [Deque.items].
  rewrite Hi, Hm, !length_app, length_map. cbn [length].
  destruct (_ <? _)%nat.
  - destruct (Deque.items d); cbn; [done|]. by rewrite map_app.
  - by rewrite map_app.
Qed.

Lemma channel_wf_new cap a : channel_wf cap (new_channel_with cap a).
Proof. repeat split; cbn; lia. Qed.

Lemma channel_wf_append cap ch t v :
  channel_wf cap ch -> channel_wf cap (channel_append ch t v).
Proof.
  intros [(Hx & Hy & Hv) [(Bx & By & Bv) (Lxy & Lyv & Hmap)]].
  split; [|split].
  - repeat split; cbn; assumption.
  - repeat split; cbn; apply deque_append_len; assumption.
  - repeat split; cbn.
    + apply deque_append_len_eq; congruence.
    + apply deque_append_len_eq; congruence.
    + apply deque_append_map; congruence.
Qed.

Lemma channel_wf_clear cap ch : channel_wf cap ch -> channel_wf cap (channel_clear ch).
Proof.
  intros [(Hx & Hy & Hv) _]. repeat split; cbn; try assumption; lia.
Qed.

Lemma channel_wf_ops cap a ops :
  channel_wf cap (fold_left apply_op ops (new_channel_with cap a)).
Proof.
  induction ops as [|op ops IH] using rev_ind; [apply channel_wf_new|].
  rewrite fold_left_app. cbn [fold_left].
  destruct op; [apply channel_wf_append | apply channel_wf_clear]; exact IH.
Qed.

(** The buffers of a channel after a run of appends are the deques
    after the appends of the three components. *)
Lemma channel_fold_buffers (samples : list (Z * string)) (ch : Channel) :
  let ch' := fold_left (fun ch s => channel_append ch (fst s) (snd s)) samples ch in
  xs ch' = fold_left Deque.append (map fst samples) (xs ch) /\
  vals ch' = fold_left Deque.append (map (fun s => try_float (snd s)) samples) (vals ch) /\
  ys ch' = fold_left Deque.append
             (map (fun s => PrimFloat.abs (try_float (snd s))) samples) (ys ch).
Proof.
  revert ch. induction samples as [|s samples IH]; intros ch; [by repeat split|].
  cbn [fold_left map]. destruct (IH (channel_append ch (fst s) (snd s))) as (Hx & Hv & Hy).
  cbv zeta. rewrite Hx, Hv, Hy. by repeat split.
Qed.

(** One append to a deque that is full drops the oldest item and adds
    the new one at the end; to one that is not full it only adds. *)
Lemma deque_append_shift {A} (d : deque A) (x : A) :
  (0 < Deque.maxlen d)%nat -> Deque.len d = Deque.maxlen d ->
  Deque.items (Deque.append d x) = tl (Deque.items d) ++ [x].
Proof.
  unfold Deque.len, Deque.append. intros Hpos Hfull. cbn [Deque.items].
  rewrite length_app. cbn [length].
  destruct (Nat.ltb_spec (Deque.maxlen d) (length (Deque.items d) + 1)); [|lia].
  destruct (Deque.items d); [cbn in Hfull; lia|reflexivity].
Qed.

Lemma deque_append_room {A} (d : deque A) (x : A) :
  (Deque.len d < Deque.maxlen d)%nat ->
  Deque.items (Deque.append d x) = Deque.items d ++ [x].
Proof.
  unfold Deque.len, Deque.append. intros Hroom. cbn [Deque.items].
  rewrite length_app. cbn [length].
  destruct (Nat.ltb_spec (Deque.maxlen d) (length (Deque.items d) + 1)); [lia|reflexivity].
Qed.

Lemma max_points_pos : (0 < MAX_POINTS)%nat.
Proof. unfold MAX_POINTS. apply Nat.lt_0_succ. Qed.

(** Every channel of a poller as constructed is a new channel. *)
Lemma init_channels_new args o :
  Forall (fun nc => exists a, snd nc = new_channel a) (channels (init args o)).
Proof.
  unfold init. cbn [channels]. destruct (truthy (arg_request_str args)); [constructor|].
  generalize (parse_cells (arg_cells args)). intros cells.
  assert (Forall (fun nc : string * Channel => exists a, snd nc = new_channel a) [])
    as Hnil by constructor.
  revert Hnil. generalize ([] : list (string * Channel)).
  induction cells as [|c cells IH]; intros acc Hacc; cbn [fold_left]; [exact Hacc|].
  apply IH. clear IH. induction Hacc as [|[n c0] acc Hc Hacc IHacc]; cbn [channels_set].
  - constructor; [by eexists|constructor].
  - destruct (String.eqb n (fst c)); constructor; auto. by eexists.
Qed.

(** C1. The buffers of a channel. [__init__] and
    [add_channel_if_missing] register new channels, whose buffers have the
    bound MAX_POINTS. These buffers never hold more than MAX_POINTS
    samples; after any run of appends they hold
    exactly the last MAX_POINTS samples appended (all of them while these
    are fewer), oldest first; an append to a channel that is full drops the
    oldest sample of each buffer and adds the new one at the end, and an
    append to one that is not full only adds. The same law holds of a
    deque of any bound, and scenario B: appends at t = 0, 1, 2, 3 of the
    values 1, 2, 3, 4 into buffers of capacity 3 leave exactly (1,2),
    (2,3), (3,4), in this order. *)
Theorem C1_ring_buffer :
  (forall args o,
     Forall (fun nc => exists a, snd nc = new_channel a) (channels (init args o)))
  /\ (forall (name a : string) (s : PollSerial),
        channels_lock s = false ->
        channels_get name (channels s) = None ->
        exists s',
          add_channel_if_missing name a s = Ok tt s' /\
          channels s' = channels_set name (new_channel a) (channels s))
  /\ (forall (a : string) (samples : list (Z * string)),
     channel_bounded MAX_POINTS
       (fold_left (fun ch s => channel_append ch (fst s) (snd s)) samples (new_channel a)))
  /\ (forall (a : string) (samples : list (Z * string)),
        let ch := fold_left (fun ch s => channel_append ch (fst s) (snd s)) samples
                    (new_channel a) in
        let k := (length samples - MAX_POINTS)%nat in
        Deque.items (xs ch) = drop k (map fst samples) /\
        Deque.items (vals ch) = drop k (map (fun s => try_float (snd s)) samples) /\
        Deque.items (ys ch)
        = drop k (map (fun s => PrimFloat.abs (try_float (snd s))) samples))
  /\ (forall (ch : Channel) (t : Z) (v : string),
        channel_wf MAX_POINTS ch ->
        Deque.len (xs ch) = MAX_POINTS ->
        Deque.items (xs (channel_append ch t v)) = tl (Deque.items (xs ch)) ++ [t] /\
        Deque.items (vals (channel_append ch t v))
        = tl (Deque.items (vals ch)) ++ [try_float v] /\
        Deque.items (ys (channel_append ch t v))
        = tl (Deque.items (ys ch)) ++ [PrimFloat.abs (try_float v)])
  /\ (forall (ch : Channel) (t : Z) (v : string),
        channel_wf MAX_POINTS ch ->
        (Deque.len (xs ch) < MAX_POINTS)%nat ->
        Deque.items (xs (channel_append ch t v)) = Deque.items (xs ch) ++ [t] /\
        Deque.items (vals (channel_append ch t v)) = Deque.items (vals ch) ++ [try_float v] /\
        Deque.items (ys (channel_append ch t v))
        = Deque.items (ys ch) ++ [PrimFloat.abs (try_float v)])
  /\ (forall (A : Type) (n : nat) (l : list A),
        Deque.items (fold_left Deque.append l (Deque.new n)) = drop (length l - n) l)
  /\ (forall (A : Type) (oldest : A) (l : list A) (x : A),
        Deque.items (Deque.append (Deque.mk (oldest :: l) (S (length l))) x) = l ++ [x])
  /\ (let ch := fold_left (fun ch s => channel_append ch (fst s) (snd s))
                  [(0, "1"); (1, "2"); (2, "3"); (3, "4")] (new_channel_with 3 "10") in
      combine (Deque.items (xs ch)) (Deque.items (vals ch))
      = [(1, 2%float); (2, 3%float); (3, 4%float)]).
Proof.
  split; [|split; [|split; [|split; [|split; [|split; [|split; [|split]]]]]]].
  - apply init_channels_new.
  - intros name a s Hlock Hget. unfold add_channel_if_missing, with_lock. rewrite Hlock.
    unfold bind, get, modify. cbn [channels set_lock]. rewrite Hget.
    eexists. split; reflexivity.
  - intros a samples.
    assert (channel_wf MAX_POINTS
              (fold_left (fun ch s => channel_append ch (fst s) (snd s)) samples
                 (new_channel a))) as Hwf.
    { unfold new_channel. generalize (channel_wf_new MAX_POINTS a).
      generalize (new_channel_with MAX_POINTS a).
      induction samples as [|s samples IH]; intros ch Hch; [exact Hch|].
      cbn [fold_left]. apply IH, channel_wf_append, Hch. }
    apply Hwf.
  - intros a samples.
    destruct (channel_fold_buffers samples (new_channel a)) as (Hx & Hv & Hy).
    cbv zeta in *. rewrite Hx, Hv, Hy.
    change (xs (new_channel a)) with (Deque.new (A:=Z) MAX_POINTS).
    change (vals (new_channel a)) with (Deque.new (A:=float) MAX_POINTS).
    change (ys (new_channel a)) with (Deque.new (A:=float) MAX_POINTS).
    rewrite !deque_items_fold, !length_map. by repeat split.
  - intros ch t v ((Cx & Cy & Cv) & _ & Lxy & Lyv & _) Hfull.
    pose proof max_points_pos as Hpos. unfold channel_append. cbn [xs ys vals].
    repeat split; apply deque_append_shift; congruence.
  - intros ch t v ((Cx & Cy & Cv) & _ & Lxy & Lyv & _) Hroom.
    unfold channel_append. cbn [xs ys vals].
    repeat split; apply deque_append_room; congruence.
  - intros A n l. apply deque_items_fold.
  - intros A oldest l x. apply deque_append_full.
  - vm_compute. reflexivity.
Qed.

(** C10. Whatever appends and clears a channel has gone through, [xs],
    [ys] and [vals] have one length and every [ys[i]] is the absolute value
    of [vals[i]]. *)
Theorem C10_buffers_aligned :
  forall (cap : nat) (a : string) (ops : list BufferOp),
    let ch := fold_left apply_op ops (new_channel_with cap a) in
    Deque.len (xs ch) = Deque.len (ys ch) /\
    Deque.len (ys ch) = Deque.len (vals ch) /\
    (forall i v, Deque.items (vals ch) !! i = Some v ->
                 Deque.items (ys ch) !! i = Some (PrimFloat.abs v)).
Proof.
  intros cap a ops ch.
  destruct (channel_wf_ops cap a ops) as (_ & _ & Hxy & Hyv & Hmap).
  fold ch in Hxy, Hyv, Hmap.
  split; [exact Hxy|]. split; [exact Hyv|].
  intros i v Hi. rewrite Hmap, list_lookup_fmap, Hi. reflexivity.
Qed.



(** ** The poll cycle in cell-list mode *)

Lemma set_serial_id s : set_serial (ser_writes s) (ser_reads s) s = s.
Proof. by destruct s. Qed.

Lemma set_channels_id s : set_channels (channels s) s = s.
Proof. by destruct s. Qed.

(** The requests of a cycle all go out, whether a write fails or not. *)
Lemma send_requests_ok io (f : string * string -> string) cells s :
  for_each cells (fun c => send_request io (f c)) s
  = Ok tt (set_serial (ser_writes s ++ map (fun c => (f c, write_ok io (f c))) cells)
             (ser_reads s) s).
Proof.
  revert s. induction cells as [|c cells IH]; intros s.
  - cbn. by rewrite app_nil_r, set_serial_id.
  - cbn [for_each map]. unfold bind at 1. unfold send_request at 1, modify.
    rewrite IH. cbn. by rewrite <- app_assoc.
Qed.

Lemma channels_get_set name n ch chs :
  channels_get name (channels_set n ch chs)
  = if String.eqb n name then Some ch else channels_get name chs.
Proof.
  induction chs as [|[m c] chs IH]; cbn.
  - destruct (String.eqb n name); reflexivity.
  - destruct (String.eqb_spec m n) as [->|Hmn]; cbn.
    + destruct (String.eqb n name); reflexivity.
    + destruct (String.eqb_spec m name) as [->|Hm].
      * destruct (String.eqb_spec n name) as [->|]; [congruence|reflexivity].
      * exact IH.
Qed.

Lemma registered_push name n t v chs :
  registered name chs -> registered name (push_sample n t v chs).
Proof.
  unfold registered, push_sample. intros Hreg.
  destruct (channels_get n chs) as [ch|]; [|exact Hreg].
  rewrite channels_get_set. destruct (String.eqb n name); [by eexists | exact Hreg].
Qed.

(** The append loop over channels that are all registered neither raises
    nor blocks, and pushes one sample per listed cell. *)
Lemma append_loop_ok (val : string * string -> string) t cells s :
  Forall (fun c => registered (fst c) (channels s)) cells ->
  for_each cells (fun c => append_sample (fst c) t (val c)) s
  = Ok tt (set_channels
             (fold_left (fun chs c => push_sample (fst c) t (val c) chs) cells (channels s)) s).
Proof.
  revert s. induction cells as [|c cells IH]; intros s Hreg.
  - cbn. by rewrite set_channels_id.
  - apply Forall_cons in Hreg as [[ch Hc] Hrest].
    assert (push_sample (fst c) t (val c) (channels s)
            = channels_set (fst c) (channel_append ch t (val c)) (channels s)) as Hpush
      by (unfold push_sample; by rewrite Hc).
    cbn [for_each fold_left]. unfold bind at 1. unfold append_sample at 1.
    unfold bind at 1, get. rewrite Hc. unfold modify.
    rewrite IH.
    + rewrite Hpush. reflexivity.
    + cbn. rewrite <- Hpush. eapply Forall_impl; [exact Hrest|]. intros c' Hc'.
      by apply registered_push.
Qed.

Lemma cell_mode_cycle s now io ts :
  truthy (request_str s) = false ->
  channels_lock s = false ->
  cycle_timestamp now s = Ok ts s ->
  Forall (fun c => registered (fst c) (channels s)) (cell_list s) ->
  exists s',
    poll_cycle now io s = Ok tt s' /\
    channels s' = fold_left (fun chs c => push_sample (fst c) ts (cell_value io (snd c)) chs)
                    (cell_list s) (channels s) /\
    log_file s' = option_map (fun rows => rows ++ [cell_row ts io (cell_list s)]) (log_file s) /\
    ser_writes s' = ser_writes s ++
                    map (fun c => ("?" +:+ snd c +:+ nl, write_ok io ("?" +:+ snd c +:+ nl)))
                      (cell_list s) /\
    ser_reads s' = S (ser_reads s) /\
    channels_lock s' = false /\ stop_event s' = stop_event s /\ paused s' = paused s /\
    cell_list s' = cell_list s /\ request_str s' = request_str s /\
    start_time s' = start_time s /\ pause_accum s' = pause_accum s.
Proof.
  intros Hmode Hlock Hts Hreg.
  unfold poll_cycle. unfold bind at 1, get. unfold bind at 1. rewrite Hts, Hmode.
  unfold bind at 1. rewrite send_requests_ok.
  unfold bind at 1. unfold read_all_response. unfold bind at 1, modify, ret.
  unfold bind at 1. unfold with_lock. cbn [channels_lock set_serial]. rewrite Hlock.
  rewrite append_loop_ok by (cbn; exact Hreg).
  unfold log_cycle_cellmode. unfold bind at 1, get.
  cbn [log_file set_lock set_channels set_serial cell_list].
  destruct (log_file s) as [rows|] eqn:Hlog.
  - eexists. split; [reflexivity|]. cbn. repeat split; reflexivity.
  - eexists. split; [reflexivity|]. cbn. rewrite Hlog. repeat split; reflexivity.
Qed.



(** C9. In cell-list mode a cycle whose transport fails, or whose response
    lacks an address, gives the cell the value '0' (the float 0.0); the
    cycle still pushes a sample for every listed cell and writes its log
    row, sends each request once and reads once, and the loop goes on to
    the next pass. *)
Theorem C9_cell_cycle_survives_failure
    (s : PollSerial) (now : float) (io : SerialIO) (ts : Z)
    (rest : list (float * SerialIO)) :
  truthy (request_str s) = false ->
  channels_lock s = false ->
  stop_event s = false ->
  paused s = false ->
  cycle_timestamp now s = Ok ts s ->
  Forall (fun c => registered (fst c) (channels s)) (cell_list s) ->
  exists s',
    poll_cycle now io s = Ok tt s' /\
    poll_passes ((now, io) :: rest) s = poll_passes rest s' /\
    channels s' = fold_left (fun chs c => push_sample (fst c) ts (cell_value io (snd c)) chs)
                    (cell_list s) (channels s) /\
    log_file s' = option_map (fun rows => rows ++ [cell_row ts io (cell_list s)]) (log_file s) /\
    ser_writes s' = ser_writes s ++
                    map (fun c => ("?" +:+ snd c +:+ nl, write_ok io ("?" +:+ snd c +:+ nl)))
                      (cell_list s) /\
    ser_reads s' = S (ser_reads s) /\
    (forall a, rx io = None \/ rx io = Some "" \/
               parse_response_dict (default "" (rx io)) !! a = None ->
               cell_value io a = "0") /\
    (forall ch, channel_append ch ts "0"
                = mkChannel (addr ch) (Deque.append (xs ch) ts)
                    (Deque.append (ys ch) 0%float) (Deque.append (vals ch) 0%float)).
Proof.
  intros Hmode Hlock Hstop Hpaused Hts Hreg.
  destruct (cell_mode_cycle s now io ts Hmode Hlock Hts Hreg)
    as (s' & Hcycle & Hch & Hlog & Hw & Hr & _).
  exists s'. split; [exact Hcycle|]. split.
  { cbn [poll_passes]. unfold bind at 1, get. rewrite Hstop, Hpaused.
    unfold bind at 1. rewrite Hcycle. reflexivity. }
  split; [exact Hch|]. split; [exact Hlog|]. split; [exact Hw|]. split; [exact Hr|].
  split.
  - intros a Ha. unfold cell_value.
    destruct (rx io) as [r|] eqn:Hrx.
    + destruct Ha as [Ha|[Ha|Ha]]; [discriminate| |].
      * injection Ha as ->. reflexivity.
      * cbn in Ha. rewrite Ha. reflexivity.
    + reflexivity.
  - intros ch. reflexivity.
Qed.

Lemma C9_witness :
  exists s', poll_cycle 100.5 io_dead cells_ab = Ok tt s' /\
             log_file s' = Some ["Time_ms, A, B" +:+ nl; "500, 0, 0" +:+ nl] /\
             map (fun nc => Deque.items (vals (snd nc))) (channels s') = [[0%float]; [0%float]].
Proof.
  destruct (C9_cell_cycle_survives_failure cells_ab 100.5 io_dead 500 [])
    as (s' & Hc & _ & Hch & Hlog & _); try reflexivity.
  - repeat constructor; eexists; reflexivity.
  - exists s'. split; [exact Hc|]. split.
    + rewrite Hlog. reflexivity.
    + rewrite Hch. reflexivity.
Defined.



(** ** Custom-request mode *)

Lemma parse_response_scenario_D :
  parse_response "$10:123$20:45,CRC" = [("10", "123"); ("20", "45")].
Proof. reflexivity. Qed.

Lemma log_cycle_querymode_scenario_D ts rows s :
  log_file s = Some rows ->
  log_cycle_querymode ts [("10", "123"); ("20", "45")] s
  = Ok tt (set_log_file (Some (rows ++ [Py.str_of_int ts +:+ ", " +:+ "123, 45" +:+ nl])) s).
Proof. intros Hlog. unfold log_cycle_querymode, bind, get. rewrite Hlog. reflexivity. Qed.

(** X2. A request-mode cycle that parses a pair for an address no channel
    has blocks for ever: [poll_loop] holds [channels_lock] when it calls
    [add_channel_if_missing], which takes the lock again. Nothing is
    stored and no row is logged. *)
Lemma request_cycle_blocks s now io ts a v rest :
  truthy (request_str s) = true ->
  channels_lock s = false ->
  cycle_timestamp now s = Ok ts s ->
  parse_response (match rx io with Some r => r | None => "" end) = (a, v) :: rest ->
  channels_find_addr a (channels s) = None ->
  exists s',
    poll_cycle now io s = Blocked s' /\
    channels s' = channels s /\ log_file s' = log_file s /\ channels_lock s' = true.
Proof.
  intros Hmode Hlock Hts Hparse Hfind.
  unfold poll_cycle. unfold bind at 1, get. unfold bind at 1. rewrite Hts, Hmode.
  unfold bind at 1. unfold send_request at 1, modify.
  unfold bind at 1. unfold read_all_response. unfold bind at 1, modify, ret.
  rewrite Hparse. unfold bind at 1. unfold with_lock at 1.
  cbn [channels_lock set_serial]. rewrite Hlock.
  cbn [for_each]. unfold bind at 1. unfold store_parsed at 1.
  unfold bind at 1, get. cbn [channels set_lock set_serial]. rewrite Hfind.
  unfold bind at 1. unfold bind at 1. unfold add_channel_if_missing, with_lock.
  cbn [channels_lock set_lock].
  eexists. split; [reflexivity|]. cbn. repeat split; reflexivity.
Qed.

(** C8. The response of scenario D parses to the two pairs, and
    [log_cycle_querymode] would write the row for them; but the cycle that
    receives the response in custom-request mode never reaches the log: it
    blocks in [add_channel_if_missing] with the log holding its header
    only. *)
Theorem C8_request_cycle_scenario_D :
  parse_response "$10:123$20:45,CRC" = [("10", "123"); ("20", "45")] /\
  (exists s', log_cycle_querymode 500 [("10", "123"); ("20", "45")] request_mode = Ok tt s' /\
              log_file s' = Some ["Time_ms, Values" +:+ nl; "500, 123, 45" +:+ nl]) /\
  (exists s', poll_cycle 100.5 io_scenario_D request_mode = Blocked s' /\
              log_file s' = Some ["Time_ms, Values" +:+ nl] /\
              channels s' = []).
Proof.
  split; [reflexivity|]. split.
  - eexists. split; [vm_compute; reflexivity|]. reflexivity.
  - eexists. split; [vm_compute; reflexivity|]. split; reflexivity.
Qed.

(** ** Pause, resume and restart *)

Ltac tidy :=
  solve [ assumption | reflexivity | discriminate
        | intros; first [assumption | reflexivity | discriminate | congruence] ].

Lemma pause_twice s t1 t2 :
  (pause_polling t1 ;; pause_polling t2) s = pause_polling t1 s.
Proof.
  unfold bind, pause_polling, get, modify, ret.
  destruct (paused s) eqn:Hp; cbn; rewrite ?Hp; reflexivity.
Qed.

(** C6, as the code has it. A restart empties the buffers of every
    channel (the channels stay registered, in their order), sets the start
    time to the clock reading and the paused total to 0, and starts a
    thread; it leaves the color assignment alone: [colors] and [next_color]
    are what they were, and a channel that had a color gets the same one
    again. *)
Theorem C6_restart_keeps_colors (s : PollSerial) (now : float) :
  channels_lock s = false ->
  exists s',
    restart_polling now s = Ok tt s' /\
    all_cleared (channels s') /\
    map fst (channels s') = map fst (channels s) /\
    start_time s' = Some now /\ pause_accum s' = 0%float /\
    pause_start s' = None /\ paused s' = false /\
    stop_event s' = false /\ thread_alive s' = true /\
    colors s' = colors s /\ next_color s' = next_color s /\
    (forall name c, colors s !! name = Some c -> assign_color name s' = Ok c s').
Proof.
  intros Hlock.
  unfold restart_polling, bind, get.
  assert (forall b, channels_lock (set_stop_event b s) = false) as Hl
    by (intros b; exact Hlock).
  destruct (thread_alive s); unfold modify, with_lock, ret, spawn_thread;
    cbn [channels_lock set_stop_event]; rewrite Hlock; unfold modify.
  all: eexists; split; [reflexivity|]; cbn.
  all: repeat split; try reflexivity.
  all: try (apply Forall_forall; intros [n ch] Hin%list_elem_of_fmap;
            destruct Hin as ([n' ch'] & Heq & _); by inversion Heq).
  all: try (rewrite <- list_fmap_compose; reflexivity).
  all: intros name c Hc; unfold assign_color, bind, get; cbn; rewrite Hc; reflexivity.
Qed.


Lemma C6_witness :
  exists s', restart_polling 9 cells_ab = Ok tt s' /\ start_time s' = Some 9%float.
Proof.
  destruct (C6_restart_keeps_colors cells_ab 9 eq_refl) as (s' & Hr & _ & _ & Ht & _).
  exists s'. split; assumption.
Defined.

(** The claim of C6 fails on its colors: with A and B seen in this order
    before a restart, B seen first after the restart still gets the second
    color of the palette, not the first, and the palette index stays 2. *)
Lemma C6_counterexample :
  let s := state_of ((assign_color "A" ;; assign_color "B") cells_ab) in
  result_of ((restart_polling 9 ;; assign_color "B") s) = Some "#3cb44b" /\
  result_of (assign_color "B" cells_ab) = Some "#e6194b" /\
  next_color (state_of (restart_polling 9 s)) = 2%nat.
Proof. cbv zeta. repeat split; vm_compute; reflexivity. Qed.

(** ** The tooltip *)

Section TooltipFacts.
Import CanvasTooltip.

(** On a canvas position, with a box at least as wide and as high as
    the cursor offset, the placement keeps the cursor inside. *)
Lemma place_contains cursor_x cursor_y text_w total_h pad cw ch :
  0 <= cursor_x <= cw -> 0 <= cursor_y <= ch ->
  0 <= text_w -> 0 <= total_h -> 4 <= pad ->
  let '(x0, y0, x1, y1) := place cursor_x cursor_y text_w total_h pad cw ch in
  x0 <= cursor_x <= x1 /\ y0 <= cursor_y <= y1.
Proof.
  intros Hx Hy Hw Hh Hpad. unfold place, TOOLTIP_OFFSET.
  repeat match goal with
         | |- context [if ?b then _ else _] =>
             let E := fresh "E" in destruct b eqn:E; cbn [negb andb] in *
         end;
    repeat match goal with
           | H : (_ <? _) = true |- _ => apply Z.ltb_lt in H
           | H : (_ <? _) = false |- _ => apply Z.ltb_ge in H
           | H : negb _ = true |- _ => apply negb_true_iff in H
           | H : negb _ = false |- _ => apply negb_false_iff in H
           | H : (_ && _) = true |- _ => apply andb_true_iff in H as [? ?]
           | H : (_ && _) = false |- _ => apply andb_false_iff in H as [?|?]
           | H : (_ <=? _) = true |- _ => apply Z.leb_le in H
           | H : (_ <=? _) = false |- _ => apply Z.leb_gt in H
           end;
    lia.
Qed.
End TooltipFacts.


Section TooltipShow.
Import CanvasTooltip.
Context `{FontMetrics}.

Lemma fold_max_ge (l : list Z) (x : Z) : x <= fold_left Z.max l x.
Proof.
  revert x. induction l as [|y l IH]; intros x; cbn; [lia|].
  specialize (IH (Z.max x y)). lia.
Qed.

(** For a cursor on the canvas and at least one line, [show] leaves
    bounds that hold the cursor. *)
Lemma show_holds_cursor
    (cursor_x cursor_y : Z) (time_line : string)
    (channel_lines channel_colors : list string) (bg : string) (pad cw ch : Z)
    (t : Tooltip) :
  (forall s, 0 <= measure tooltip_font s) ->
  0 <= linespace tooltip_font ->
  4 <= pad ->
  0 <= cursor_x <= cw ->
  0 <= cursor_y <= ch ->
  time_line <> "" \/ combine channel_lines channel_colors <> [] ->
  exists x0 y0 x1 y1,
    bounds (show cursor_x cursor_y time_line channel_lines channel_colors bg pad cw ch t)
    = Some (x0, y0, x1, y1) /\
    x0 <= cursor_x <= x1 /\ y0 <= cursor_y <= y1.
Proof.
  intros Hm Hls Hpad Hx Hy Hlines. unfold show.
  set (lines := (if String.eqb time_line "" then [] else [(time_line, "white")]) ++
                combine channel_lines channel_colors).
  assert (lines <> []) as Hne.
  { subst lines. destruct (String.eqb_spec time_line "") as [->|_]; [|discriminate].
    destruct Hlines as [Hl|Hl]; [congruence|exact Hl]. }
  destruct lines as [|l0 lines']; [congruence|].
  cbn [map Py.max_ints].
  set (text_w := fold_left Z.max _ _).
  assert (0 <= text_w) as Hw.
  { subst text_w. etransitivity; [apply (Hm (fst l0))|apply fold_max_ge]. }
  set (total_h := linespace tooltip_font * Z.of_nat (length (l0 :: lines'))).
  assert (0 <= total_h) as Hh
    by (subst total_h; apply Z.mul_nonneg_nonneg; [exact Hls | apply Nat2Z.is_nonneg]).
  pose proof (place_contains cursor_x cursor_y text_w total_h pad cw ch Hx Hy Hw Hh Hpad)
    as Hplace.
  destruct (place cursor_x cursor_y text_w total_h pad cw ch) as [[[x0 y0] x1] y1].
  exists x0, y0, x1, y1. split; [reflexivity|exact Hplace].
Qed.

End TooltipShow.


(** ** The rendering pass *)

Section RenderingFacts.
Context `{FontMetrics}.

Lemma canvas_create it s : create it s = Ok tt (set_canvas (canvas s ++ [it]) s).
Proof. reflexivity. Qed.



(** A channel without samples is passed over. *)
Lemma draw_channel_empty left top right bottom x_min x_max placed name a n ys0 vals0 :
  draw_channel left top right bottom x_min x_max placed
    (name, mkChannel a (Deque.mk [] n) ys0 vals0) = ret placed.
Proof. reflexivity. Qed.

Lemma draw_channel_skip left top right bottom x_min x_max placed nc :
  has_samples nc = false ->
  draw_channel left top right bottom x_min x_max placed nc = ret placed.
Proof.
  destruct nc as [name ch]. unfold has_samples, draw_channel. cbn [snd].
  destruct (Deque.items (xs ch)); [reflexivity|discriminate].
Qed.

(** The plot loop does what it would do without the empty channels. *)
Lemma draw_channels_filter left top right bottom x_min x_max chs placed s :
  fold_m chs placed (draw_channel left top right bottom x_min x_max) s
  = fold_m (List.filter has_samples chs) placed
      (draw_channel left top right bottom x_min x_max) s.
Proof.
  revert placed s. induction chs as [|nc chs IH]; intros placed s; [reflexivity|].
  cbn [List.filter fold_m]. destruct (has_samples nc) eqn:Hs.
  - cbn [fold_m]. unfold bind.
    destruct (draw_channel left top right bottom x_min x_max placed nc s); [apply IH|done..].
  - unfold bind. rewrite draw_channel_skip by exact Hs. cbn. apply IH.
Qed.

Lemma assign_color_total name s :
  exists c s', assign_color name s = Ok c s' /\ canvas s' = canvas s.
Proof.
  unfold assign_color, bind, get. destruct (colors s !! name) as [c|].
  - exists c, s. split; reflexivity.
  - eexists _, _. split; reflexivity.
Qed.

(** The legend loop draws one entry for every registered channel. *)
Lemma legend_loop_ok legend_y chs legend_x s :
  exists cols s',
    length cols = length chs /\
    fold_m chs legend_x (legend_entry legend_y) s = Ok (legend_end legend_x chs) s' /\
    canvas s' = canvas s ++ legend_layout legend_y legend_x chs cols.
Proof.
  revert legend_x s. induction chs as [|[name ch] chs IH]; intros legend_x s.
  - exists [], s. repeat split. cbn. by rewrite app_nil_r.
  - destruct (assign_color_total name s) as (c & s1 & Hc & Hcanvas).
    cbn [fold_m]. unfold bind at 1. unfold legend_entry at 1. unfold bind at 1.
    rewrite Hc. unfold bind at 1. rewrite canvas_create. unfold ret at 1.
    destruct (IH (legend_x + (measure legend_font (legend_text name ch) + LEGEND_GAP))
                (set_canvas (canvas s1 ++
                   [Text legend_x legend_y "nw" (legend_text name ch) c legend_font]) s1))
      as (cols & s' & Hlen & Hfold & Hcv).
    exists (c :: cols), s'. split; [cbn; by rewrite Hlen|]. split; [exact Hfold|].
    rewrite Hcv. cbn. rewrite Hcanvas, <- app_assoc. reflexivity.
Qed.

End RenderingFacts.


Section RenderingClaims.
Context `{FontMetrics}.


(** The exceptions of a pixel position are those of [int()]. *)
Lemma int_of_float_exn f e :
  Py.int_of_float f = inl e -> e = Py.ValueError \/ e = Py.OverflowError.
Proof.
  unfold Py.int_of_float. destruct (Prim2SF f); intros Heq; inversion Heq; auto.
Qed.




End RenderingClaims.


(** The two ways a channel with samples is not drawn in full, on
    states a poller reaches by one cycle. After the response '$10:inf' the
    sample has no pixel position: the pass raises ValueError with the
    border alone on the canvas. After '$10:1e308' the band value of the
    third gridline overflows: the pass raises OverflowError after the
    polyline and two gridlines with their labels. *)
Lemma render_not_finite :
  let s := state_of (poll_loop 100 [(100.5%float, io_reply "$10:inf")]
                       (init (mkArgs None ["V:10"] None) OpenFails)) in
  exists s',
    @update_canvas fixed_pitch 800 600 s = Raised Py.ValueError s' /\
    canvas s' = [Rectangle 70 20 780 530 "" "white"].
Proof. cbv zeta. eexists. split; vm_compute; reflexivity. Qed.

Lemma render_overflow :
  let s := state_of (poll_loop 100 [(100.5%float, io_reply "$10:1e308")]
                       (init (mkArgs None ["V:10"] None) OpenFails)) in
  exists s',
    @update_canvas fixed_pitch 800 600 s = Raised Py.OverflowError s' /\
    length (omap label_text (canvas s')) = 2%nat.
Proof. cbv zeta. eexists. split; vm_compute; reflexivity. Qed.


(** C2. On a canvas 800 by 600 with two channels that hold a sample
    each, the pass places the label of the lowest gridline of the second
    channel on the rectangle of the first channel's: the probe finds a
    free place below the plot, and the clamp to the bottom bound moves it
    back onto the label already there. *)
Theorem C2_bottom_labels_overlap :
  let rects := omap (label_rect (@linespace fixed_pitch grid_font + 2))
                 (canvas (state_of (@update_canvas fixed_pitch 800 600 two_channels))) in
  rects = [(513, 530); (420, 437); (318, 335); (216, 233); (114, 131); (63, 80);
           (513, 530); (401, 418); (299, 316); (197, 214); (95, 112); (44, 61)] /\
  (exists r1 r2, rects !! 0%nat = Some r1 /\ rects !! 6%nat = Some r2 /\
                 rects_overlap r1 r2 = true).
Proof.
  cbv zeta. split; [vm_compute; reflexivity|].
  exists (513, 530), (513, 530). repeat split; vm_compute; reflexivity.
Qed.



(** ** Invariants of the registry over every run *)

Section Keeps.
Variable P : PollSerial -> Prop.

Lemma keeps_ret {A} (a : A) : keeps P (ret a).
Proof. intros s Hs. exact Hs. Qed.

Lemma keeps_raise {A} e : keeps P (@raise A e).
Proof. intros s Hs. exact Hs. Qed.

Lemma keeps_get : keeps P get.
Proof. intros s Hs. exact Hs. Qed.

Lemma keeps_modify f : (forall s, P s -> P (f s)) -> keeps P (modify f).
Proof. intros Hf s Hs. apply Hf, Hs. Qed.

Lemma keeps_bind {A B} (m : M A) (f : A -> M B) :
  keeps P m -> (forall a, keeps P (f a)) -> keeps P (bind m f).
Proof.
  intros Hm Hf s Hs. unfold bind. specialize (Hm s Hs).
  destruct (m s) as [a s'|e s'|s']; cbn in *; [apply Hf, Hm|exact Hm..].
Qed.

Lemma keeps_bind_get {B} (f : PollSerial -> M B) :
  (forall s, P s -> keeps P (f s)) -> keeps P (bind get f).
Proof. intros Hf s Hs. unfold bind, get. by apply Hf. Qed.

Lemma keeps_lift {A} (r : Py.Exn + A) : keeps P (lift r).
Proof. destruct r; intros s Hs; exact Hs. Qed.

Lemma keeps_for_each {A} (l : list A) (body : A -> M unit) :
  (forall x, keeps P (body x)) -> keeps P (for_each l body).
Proof.
  intros Hb. induction l as [|x l IH]; cbn [for_each]; [apply keeps_ret|].
  apply keeps_bind; [apply Hb|intros _; exact IH].
Qed.

Lemma keeps_fold_m {A B} (l : list A) (acc : B) (body : B -> A -> M B) :
  (forall b x, keeps P (body b x)) -> keeps P (fold_m l acc body).
Proof.
  intros Hb. revert acc. induction l as [|x l IH]; intros acc; cbn [fold_m];
    [apply keeps_ret|].
  apply keeps_bind; [apply Hb|intros acc'; apply IH].
Qed.

Hypothesis P_lock : forall b s, P s -> P (set_lock b s).

Lemma keeps_with_lock {A} (body : M A) : keeps P body -> keeps P (with_lock body).
Proof.
  intros Hb s Hs. unfold with_lock. destruct (channels_lock s); [exact Hs|].
  specialize (Hb (set_lock true s) (P_lock true s Hs)).
  destruct (body (set_lock true s)) as [a s'|e s'|s']; cbn in *;
    [apply P_lock, Hb | apply P_lock, Hb | exact Hb].
Qed.
End Keeps.

Lemma registry_wf_get name chs ch :
  Forall (fun nc => channel_wf MAX_POINTS (snd nc)) chs ->
  channels_get name chs = Some ch -> channel_wf MAX_POINTS ch.
Proof.
  induction chs as [|[n c] chs IH]; cbn; [discriminate|].
  intros Hall Hget. apply Forall_cons in Hall as [Hc Hall]. cbn in Hc.
  destruct (String.eqb n name); [by injection Hget as <- | by apply IH].
Qed.

Lemma registry_wf_set name ch chs :
  channel_wf MAX_POINTS ch ->
  Forall (fun nc => channel_wf MAX_POINTS (snd nc)) chs ->
  Forall (fun nc => channel_wf MAX_POINTS (snd nc)) (channels_set name ch chs).
Proof.
  intros Hch. induction chs as [|[n c] chs IH]; cbn; intros Hall.
  - constructor; [exact Hch|constructor].
  - apply Forall_cons in Hall as [Hc Hall].
    destruct (String.eqb n name); constructor; auto.
Qed.

Section RegistryInvariant.
Context `{FontMetrics}.

Ltac keep_step :=
  lazymatch goal with
  | |- keeps _ (ret _) => apply keeps_ret
  | |- keeps _ get => apply keeps_get
  | |- keeps _ (raise _) => apply keeps_raise
  | |- keeps _ (lift _) => apply keeps_lift
  | |- keeps _ (bind get _) => apply keeps_bind_get; intros ? ?
  | |- keeps _ (bind _ _) => apply keeps_bind; [|intros ?]
  | |- keeps _ (for_each _ _) => apply keeps_for_each; intros ?
  | |- keeps _ (fold_m _ _ _) => apply keeps_fold_m; intros ? ?
  | |- keeps _ (with_lock _) => apply keeps_with_lock; [intros ? ? ?; assumption|]
  | |- keeps _ (modify _) => apply keeps_modify; intros ? ?; assumption
  end.
Ltac keep := repeat keep_step.

Lemma keeps_assign_color name : keeps registry_wf (assign_color name).
Proof. unfold assign_color. keep. destruct (colors _ !! name); keep. Qed.

Lemma keeps_create it : keeps registry_wf (create it).
Proof. unfold create. keep. Qed.

Lemma keeps_append_sample name t v : keeps registry_wf (append_sample name t v).
Proof.
  unfold append_sample. apply keeps_bind_get. intros s Hs.
  destruct (channels_get name (channels s)) as [ch|] eqn:Hget; [|keep].
  apply keeps_modify. intros s' _. unfold registry_wf. cbn.
  apply registry_wf_set; [|exact Hs].
  apply channel_wf_append. eapply registry_wf_get; eassumption.
Qed.

Lemma keeps_add_channel name a : keeps registry_wf (add_channel_if_missing name a).
Proof.
  unfold add_channel_if_missing. apply keeps_with_lock; [intros ? ? ?; assumption|].
  apply keeps_bind_get. intros s Hs.
  destruct (channels_get name (channels s)); [keep|].
  apply keeps_modify. intros s' _. unfold registry_wf. cbn.
  apply registry_wf_set; [apply channel_wf_new|exact Hs].
Qed.

Lemma keeps_poll_cycle now io : keeps registry_wf (poll_cycle now io).
Proof.
  unfold poll_cycle. apply keeps_bind_get. intros s Hs.
  apply keeps_bind.
  { unfold cycle_timestamp. keep. destruct (start_time _); keep.
    destruct (Py.int_of_float _); keep. }
  intros ts. destruct (truthy (request_str s)).
  - apply keeps_bind; [unfold send_request; keep|]. intros _.
    apply keeps_bind; [unfold read_all_response; keep|]. intros resp.
    apply keeps_bind.
    + destruct (parse_response resp); [keep|].
      apply keeps_with_lock; [intros ? ? ?; assumption|].
      apply keeps_for_each. intros [a v]. unfold store_parsed.
      apply keeps_bind_get. intros s1 Hs1. apply keeps_bind.
      * destruct (channels_find_addr a (channels s1)); [keep|].
        apply keeps_bind; [apply keeps_add_channel|intros ?; keep].
      * intros nm. apply keeps_append_sample.
    + intros _. unfold log_cycle_querymode. keep. destruct (log_file _); keep.
  - apply keeps_bind; [unfold send_request; keep|]. intros _.
    apply keeps_bind; [unfold read_all_response; keep|]. intros resp.
    apply keeps_bind.
    + apply keeps_with_lock; [intros ? ? ?; assumption|].
      apply keeps_for_each. intros c. apply keeps_append_sample.
    + intros _. unfold log_cycle_cellmode. keep. destruct (log_file _); keep.
Qed.

Lemma keeps_start now : keeps registry_wf (start_polling_thread now).
Proof.
  unfold start_polling_thread, spawn_thread. keep.
  destruct (thread_alive _); keep. destruct (start_time _); keep.
Qed.

Lemma keeps_restart now : keeps registry_wf (restart_polling now).
Proof.
  unfold restart_polling, spawn_thread. apply keeps_bind_get. intros s Hs.
  apply keeps_bind; [destruct (thread_alive s); keep|]. intros _.
  apply keeps_bind; [keep|]. intros _.
  apply keeps_bind; [|intros _; keep].
  apply keeps_with_lock; [intros ? ? ?; assumption|].
  apply keeps_modify. intros s1 Hs1. unfold registry_wf in *. cbn.
  apply Forall_fmap. eapply Forall_impl; [exact Hs1|].
  intros [n ch] Hch. cbn in *. by apply channel_wf_clear.
Qed.

Lemma keeps_update_canvas w h : keeps registry_wf (update_canvas w h).
Proof.
  unfold update_canvas. apply keeps_bind; [keep|]. intros _.
  destruct ((w <? 10) || (h <? 10)); [keep|].
  apply keeps_bind; [apply keeps_create|]. intros _.
  apply keeps_with_lock; [intros ? ? ?; assumption|].
  apply keeps_bind_get. intros s Hs.
  destruct (Py.min_ints _); [|apply keeps_create].
  destruct (Py.max_ints _); [|apply keeps_create].
  apply keeps_bind.
  { apply keeps_fold_m. intros placed [name ch]. unfold draw_channel.
    destruct (Deque.items (xs ch)); [keep|].
    apply keeps_bind; [keep|]. intros pts.
    apply keeps_bind; [apply keeps_assign_color|]. intros color.
    apply keeps_bind; [apply keeps_for_each; intros ?; apply keeps_create|]. intros _.
    apply keeps_fold_m. intros placed' i. unfold draw_gridline.
    apply keeps_bind; [keep|]. intros yc.
    apply keeps_bind; [apply keeps_create|]. intros _.
    apply keeps_bind; [apply keeps_create|]. intros _. keep. }
  intros _. apply keeps_bind; [apply keeps_create|]. intros _.
  apply keeps_bind; [apply keeps_create|]. intros _.
  apply keeps_bind; [|intros _; keep].
  apply keeps_fold_m. intros x [name ch]. unfold legend_entry.
  apply keeps_bind; [apply keeps_assign_color|]. intros color.
  apply keeps_bind; [apply keeps_create|]. intros _. keep.
Qed.

Lemma registry_wf_init args o : registry_wf (init args o).
Proof.
  unfold registry_wf, init. cbn [channels].
  destruct (truthy (arg_request_str args)); [constructor|].
  generalize (parse_cells (arg_cells args)). intros cells.
  assert (Forall (fun nc => channel_wf MAX_POINTS (snd nc)) ([] : list (string * Channel)))
    as Hnil by constructor.
  revert Hnil. generalize ([] : list (string * Channel)).
  induction cells as [|c cells IH]; intros acc Hacc; cbn; [exact Hacc|].
  apply IH, registry_wf_set; [apply channel_wf_new|exact Hacc].
Qed.

(** X1. In every state a poller can reach, every registered channel holds
    at most MAX_POINTS samples in buffers of one length, with [ys] the
    magnitudes of [vals]. *)
Theorem reachable_registry_wf s : reachable s -> registry_wf s.
Proof.
  induction 1 as [args o|s c Hs IH]; [apply registry_wf_init|].
  destruct c; cbn [run].
  - by apply keeps_poll_cycle.
  - by apply keeps_start.
  - revert IH. apply (keeps_bind_get registry_wf). intros s0 Hs0.
    destruct (paused s0); unfold keeps; intros; assumption.
  - revert IH. apply (keeps_bind_get registry_wf). intros s0 Hs0.
    destruct (negb (paused s0)).
    + destruct (negb (thread_alive s0)); [apply keeps_start|apply keeps_ret].
    + unfold keeps; intros; assumption.
  - by apply keeps_restart.
  - by apply keeps_update_canvas.
Qed.

End RegistryInvariant.

Lemma reachable_registry_wf_witness :
  registry_wf
    (state_of (@run fixed_pitch (Cycle 100.5 (io_reply "$10:1$20:1,CRC"))
       (state_of (@run fixed_pitch (Start 100)
          (init (mkArgs None ["A:10"; "B:20"] (Some "log.csv")) (Opened false)))))).
Proof.
  apply (@reachable_registry_wf fixed_pitch).
  apply reach_step, reach_step, reach_init.
Defined.



(** ** Label placement *)

Lemma place_label_height placed y_canvas text_h top bottom :
  snd (place_label placed y_canvas text_h top bottom)
  = fst (place_label placed y_canvas text_h top bottom) + text_h.
Proof.
  unfold place_label. generalize (probe 50 0 (y_canvas - text_h / 2) text_h placed
                                   (y_canvas - text_h / 2)). intros p.
  destruct (p <? top); cbn [fst snd];
    repeat match goal with |- context [if ?b then _ else _] => destruct b end;
    cbn [fst snd]; lia.
Qed.

(** X3. On a plot at least as high as a label, a placed label lies
    between the vertical bounds. *)
Lemma place_label_in_bounds placed y_canvas text_h top bottom :
  text_h <= bottom - top ->
  top <= fst (place_label placed y_canvas text_h top bottom) /\
  snd (place_label placed y_canvas text_h top bottom) <= bottom.
Proof.
  intros Hh. unfold place_label.
  generalize (probe 50 0 (y_canvas - text_h / 2) text_h placed (y_canvas - text_h / 2)).
  intros p.
  destruct (Z.ltb_spec p top); cbn [fst snd].
  - destruct (Z.ltb_spec bottom (top + text_h)); cbn [fst snd]; lia.
  - destruct (Z.ltb_spec bottom (p + text_h)); cbn [fst snd]; lia.
Qed.

Lemma place_label_in_bounds_witness :
  20 <= fst (place_label [(513, 530)] 530 17 20 530) /\
  snd (place_label [(513, 530)] 530 17 20 530) <= 530.
Proof. apply place_label_in_bounds. lia. Defined.

Lemma overlaps_none placed t b :
  Forall (fun r => snd r + 1 < t) placed -> overlaps placed t b = false.
Proof.
  induction 1 as [|r placed Hr _ IH]; [reflexivity|]. cbn [overlaps existsb].
  fold (overlaps placed t b). rewrite IH.
  destruct (Z.ltb_spec (snd r + 1) t); [|lia].
  by rewrite orb_true_r.
Qed.

Lemma overlaps_some placed r t b :
  In r placed -> fst r - 1 <= b -> t <= snd r + 1 -> overlaps placed t b = true.
Proof.
  intros Hin Hb Ht. unfold overlaps. apply existsb_exists. exists r. split; [exact Hin|].
  destruct (Z.ltb_spec b (fst r - 1)); [lia|].
  destruct (Z.ltb_spec (snd r + 1) t); [lia|]. reflexivity.
Qed.

(** X4. Once a label sits on the bottom bound (as the label of the lowest
    gridline of the first channel drawn does), the label of any further
    gridline at the bottom of the plot is placed on the same rectangle. *)
Lemma bottom_labels_collide placed text_h top bottom :
  1 <= text_h ->
  top <= bottom - text_h ->
  Forall (fun r => snd r <= bottom) placed ->
  In (bottom - text_h, bottom) placed ->
  place_label placed bottom text_h top bottom = (bottom - text_h, bottom).
Proof.
  intros Hh Htop Hall Hin. unfold place_label.
  assert (0 <= text_h / 2 /\ 2 * (text_h / 2) <= text_h) as [Hd0 Hd1].
  { split; [apply Z.div_pos; lia|]. apply Z.mul_div_le. lia. }
  set (d := bottom - text_h / 2).
  assert (probe 50 0 d text_h placed d = d + (text_h + 2)) as ->.
  { change 50%nat with (S (S 48)). cbn [probe].
    rewrite (overlaps_some placed (bottom - text_h, bottom)) by (cbn [fst snd]; subst d; lia || exact Hin).
    change (0 / 2 + 1) with 1. change (0 mod 2 =? 0) with true. cbn beta iota.
    rewrite (overlaps_some placed (bottom - text_h, bottom)) by (cbn [fst snd]; subst d; lia || exact Hin).
    change ((0 + 1) / 2 + 1) with 1. change ((0 + 1) mod 2 =? 0) with false. cbn beta iota.
    rewrite overlaps_none; [lia|].
    eapply Forall_impl; [exact Hall|]. intros r Hr. cbn beta in *. subst d. lia. }
  subst d.
  destruct (Z.ltb_spec (bottom - text_h / 2 + (text_h + 2)) top); [lia|].
  destruct (Z.ltb_spec bottom (bottom - text_h / 2 + (text_h + 2) + text_h)); [reflexivity|lia].
Qed.

Lemma bottom_labels_collide_witness :
  place_label [(513, 530); (420, 437)] 530 17 20 530 = (530 - 17, 530).
Proof.
  apply bottom_labels_collide; [lia | lia | | left; reflexivity].
  repeat constructor; cbn; lia.
Defined.

(** In custom-request mode no channel is registered at the start, so the
    cycle of scenario D blocks on its first pair. *)
Lemma request_cycle_blocks_witness :
  exists s', poll_cycle 100.5 io_scenario_D request_mode = Blocked s' /\
             channels s' = channels request_mode /\ log_file s' = log_file request_mode /\
             channels_lock s' = true.
Proof.
  apply (request_cycle_blocks request_mode 100.5 io_scenario_D 500 "10" "123" [("20", "45")]);
    reflexivity.
Defined.

(** ** What every command keeps *)

(** A property of the poller that the lock, the clock, the stop flag, the
    thread, the transport trace and the canvas do not bear on is kept by
    every command once it is kept by the few steps that write the colors,
    the registry and the log. *)
Section RunKeeps.
Context `{FontMetrics}.
Variable P : PollSerial -> Prop.
Hypothesis P_lock : forall b s, P s -> P (set_lock b s).
Hypothesis P_clock : forall t0 acc ps p s, P s -> P (set_clock t0 acc ps p s).
Hypothesis P_stop : forall b s, P s -> P (set_stop_event b s).
Hypothesis P_thread : forall t s, P s -> P (set_poll_thread t s).
Hypothesis P_serial : forall w r s, P s -> P (set_serial w r s).
Hypothesis P_canvas : forall c s, P s -> P (set_canvas c s).
Hypothesis P_color : forall name, keeps P (assign_color name).
Hypothesis P_append : forall name t v, keeps P (append_sample name t v).
Hypothesis P_store : forall t parsed, keeps P (with_lock (for_each parsed (store_parsed t))).
Hypothesis P_clear :
  forall s, P s ->
    P (set_channels (map (fun nc => (fst nc, channel_clear (snd nc))) (channels s)) s).
Hypothesis P_log :
  forall rows row s, P s -> log_file s = Some rows ->
    P (set_log_file (Some (rows ++ [row])) s).

Ltac frame_step :=
  lazymatch goal with
  | |- keeps _ (ret _) => apply keeps_ret
  | |- keeps _ get => apply keeps_get
  | |- keeps _ (raise _) => apply keeps_raise
  | |- keeps _ (lift _) => apply keeps_lift
  | |- keeps _ (assign_color _) => apply P_color
  | |- keeps _ (append_sample _ _ _) => apply P_append
  | |- keeps _ (with_lock (for_each _ (store_parsed _))) => apply P_store
  | |- keeps _ (create _) => apply keeps_modify; intros ? ?; cbv beta; auto
  | |- keeps _ (bind get _) => apply keeps_bind_get; intros ? ?
  | |- keeps _ (bind _ _) => apply keeps_bind; [|intros ?]
  | |- keeps _ (for_each _ _) => apply keeps_for_each; intros ?
  | |- keeps _ (fold_m _ _ _) => apply keeps_fold_m; intros ? ?
  | |- keeps _ (with_lock _) => apply keeps_with_lock; [exact P_lock|]
  | |- keeps _ (modify _) => apply keeps_modify; intros ? ?; cbv beta zeta; auto
  | |- keeps _ (match ?x with _ => _ end) => destruct x
  | |- keeps _ (if ?x then _ else _) => destruct x
  | |- keeps _ (let (_, _) := ?x in _) => destruct x
  end.
Ltac frame := repeat frame_step.

Lemma frame_log_cellmode t d : keeps P (log_cycle_cellmode t d).
Proof.
  intros s Hs. unfold log_cycle_cellmode, bind, get.
  destruct (log_file s) as [rows|] eqn:Hlog; [|exact Hs].
  cbn. by apply P_log.
Qed.

Lemma frame_log_querymode t parsed : keeps P (log_cycle_querymode t parsed).
Proof.
  intros s Hs. unfold log_cycle_querymode, bind, get.
  destruct (log_file s) as [rows|] eqn:Hlog; [|exact Hs].
  cbn. by apply P_log.
Qed.

Lemma frame_cycle_timestamp now : keeps P (cycle_timestamp now).
Proof. unfold cycle_timestamp. frame. Qed.

Lemma frame_poll_cycle now io : keeps P (poll_cycle now io).
Proof.
  unfold poll_cycle. apply keeps_bind_get. intros s Hs.
  apply keeps_bind; [apply frame_cycle_timestamp|]. intros ts.
  destruct (truthy (request_str s)).
  - apply keeps_bind; [unfold send_request; frame|]. intros _.
    apply keeps_bind; [unfold read_all_response; frame|]. intros resp.
    apply keeps_bind; [|intros _; apply frame_log_querymode].
    destruct (parse_response resp); [apply keeps_ret|apply P_store].
  - apply keeps_bind; [unfold send_request; frame|]. intros _.
    apply keeps_bind; [unfold read_all_response; frame|]. intros resp.
    apply keeps_bind; [frame|intros _; apply frame_log_cellmode].
Qed.

Lemma frame_start now : keeps P (start_polling_thread now).
Proof. unfold start_polling_thread, spawn_thread. frame. Qed.

Lemma frame_pause now : keeps P (pause_polling now).
Proof. unfold pause_polling. frame. Qed.

Lemma frame_resume now now' : keeps P (resume_polling now now').
Proof.
  unfold resume_polling. apply keeps_bind_get. intros s Hs.
  destruct (negb (paused s)).
  - destruct (negb (thread_alive s)); [apply frame_start|apply keeps_ret].
  - frame.
Qed.

Lemma frame_restart now : keeps P (restart_polling now).
Proof. unfold restart_polling, spawn_thread. frame. Qed.

Lemma frame_draw_channel left top right bottom x_min x_max placed nc :
  keeps P (draw_channel left top right bottom x_min x_max placed nc).
Proof. unfold draw_channel, draw_gridline. frame. Qed.

Lemma frame_update_canvas w h : keeps P (update_canvas w h).
Proof.
  unfold update_canvas. apply keeps_bind; [frame|]. intros _.
  destruct ((w <? 10) || (h <? 10)); [apply keeps_ret|].
  apply keeps_bind; [frame|]. intros _.
  apply keeps_with_lock; [exact P_lock|].
  apply keeps_bind_get. intros s Hs.
  destruct (Py.min_ints _); [|frame]. destruct (Py.max_ints _); [|frame].
  apply keeps_bind; [apply keeps_fold_m; intros ? ?; apply frame_draw_channel|]. intros _.
  apply keeps_bind; [frame|]. intros _. apply keeps_bind; [frame|]. intros _.
  apply keeps_bind; [|intros _; apply keeps_ret].
  apply keeps_fold_m. intros x [name ch]. unfold legend_entry. frame.
Qed.

(** The frame rule of the commands. *)
Lemma run_keeps c : keeps P (run c).
Proof.
  destruct c; cbn [run].
  - apply frame_poll_cycle.
  - apply frame_start.
  - apply frame_pause.
  - apply frame_resume.
  - apply frame_restart.
  - apply frame_update_canvas.
Qed.

End RunKeeps.

(** The loop that stores the parsed pairs keeps what the two writes of
    the registry keep. *)
Lemma keeps_store (P : PollSerial -> Prop) :
  (forall b s, P s -> P (set_lock b s)) ->
  (forall name a, keeps P (add_channel_if_missing name a)) ->
  (forall name t v, keeps P (append_sample name t v)) ->
  forall t parsed, keeps P (with_lock (for_each parsed (store_parsed t))).
Proof.
  intros Hlock Hadd Happ t parsed.
  apply keeps_with_lock; [exact Hlock|]. apply keeps_for_each. intros [a v].
  unfold store_parsed. apply keeps_bind_get. intros s Hs.
  apply keeps_bind; [|intros nm; apply Happ].
  destruct (channels_find_addr a (channels s)); [apply keeps_ret|].
  apply keeps_bind; [apply Hadd|intros _; apply keeps_ret].
Qed.

(** A property that only the registry bears on. *)
Section RegistryKeeps.
Context `{FontMetrics}.
Variable Q : list (string * Channel) -> Prop.
Hypothesis Q_set_new :
  forall name a chs, Q chs -> channels_get name chs = None ->
    Q (channels_set name (new_channel a) chs).
Hypothesis Q_set_append :
  forall name ch t v chs, Q chs -> channels_get name chs = Some ch ->
    Q (channels_set name (channel_append ch t v) chs).
Hypothesis Q_clear :
  forall chs, Q chs -> Q (map (fun nc => (fst nc, channel_clear (snd nc))) chs).

Let P (s : PollSerial) : Prop := Q (channels s).

Lemma registry_keeps_append name t v : keeps P (append_sample name t v).
Proof.
  intros s Hs. unfold append_sample, bind, get.
  destruct (channels_get name (channels s)) as [ch|] eqn:Hget; [|exact Hs].
  cbn. by apply Q_set_append.
Qed.

Lemma registry_keeps_add name a : keeps P (add_channel_if_missing name a).
Proof.
  intros s Hs. unfold add_channel_if_missing, with_lock.
  destruct (channels_lock s); [exact Hs|]. unfold bind, get. cbn [channels set_lock].
  destruct (channels_get name (channels s)) eqn:Hget; cbn; [exact Hs|].
  by apply Q_set_new.
Qed.

Lemma registry_keeps_color name : keeps P (assign_color name).
Proof.
  intros s Hs. unfold assign_color, bind, get.
  destruct (colors s !! name); exact Hs.
Qed.

Lemma registry_run_keeps c : keeps P (run c).
Proof.
  apply run_keeps; try (intros; assumption).
  - apply registry_keeps_color.
  - apply registry_keeps_append.
  - apply keeps_store; [intros; assumption|apply registry_keeps_add|apply registry_keeps_append].
  - intros s Hs. apply Q_clear, Hs.
Qed.

End RegistryKeeps.

(** ** The configuration never changes *)

Lemma run_keeps_config `{FontMetrics} (r : option string) (l : list (string * string)) c :
  keeps (fun s => request_str s = r /\ cell_list s = l) (run c).
Proof.
  apply run_keeps; try (intros; assumption).
  - intros name s Hs. unfold assign_color, bind, get. destruct (colors s !! name); exact Hs.
  - intros name t v s Hs. unfold append_sample, bind, get.
    destruct (channels_get name (channels s)); exact Hs.
  - apply keeps_store; [intros; assumption| |].
    + intros name a s Hs. unfold add_channel_if_missing, with_lock.
      destruct (channels_lock s); [exact Hs|]. unfold bind, get. cbn [channels set_lock].
      destruct (channels_get name (channels s)); exact Hs.
    + intros name t v s Hs. unfold append_sample, bind, get.
      destruct (channels_get name (channels s)); exact Hs.
Qed.

Lemma run_request_str `{FontMetrics} c s : request_str (state_of (run c s)) = request_str s.
Proof. by destruct (run_keeps_config (request_str s) (cell_list s) c s). Qed.

Lemma run_cell_list `{FontMetrics} c s : cell_list (state_of (run c s)) = cell_list s.
Proof. by destruct (run_keeps_config (request_str s) (cell_list s) c s). Qed.

Lemma sample_run_reachable : @reachable fixed_pitch sample_run.
Proof. apply reach_step, reach_step, reach_init. Qed.

Lemma sample_request_run_reachable : @reachable fixed_pitch sample_request_run.
Proof. apply reach_step, reach_step, reach_init. Qed.

(** ** Pause and resume once the clock runs *)

Section Started.
Context `{FontMetrics}.

Lemma start_sets_clock now args o :
  start_time (state_of (start_polling_thread now (init args o))) <> None.
Proof. unfold start_polling_thread, bind, get, init. cbn. discriminate. Qed.

Lemma run_keeps_clock c : keeps (fun s => start_time s <> None) (run c).
Proof.
  destruct c; cbn [run].
  - apply frame_poll_cycle; try (intros; assumption).
    + intros name t v s Hs. unfold append_sample, bind, get.
      destruct (channels_get name (channels s)); exact Hs.
    + apply keeps_store; [intros; assumption| |].
      * intros name a s Hs. unfold add_channel_if_missing, with_lock.
        destruct (channels_lock s); [exact Hs|]. unfold bind, get. cbn [channels set_lock].
        destruct (channels_get name (channels s)); exact Hs.
      * intros name t v s Hs. unfold append_sample, bind, get.
        destruct (channels_get name (channels s)); exact Hs.
  - intros s Hs. unfold start_polling_thread, spawn_thread, bind, get, modify, ret.
    destruct (thread_alive s); [exact Hs|].
    destruct (start_time s) eqn:Ht; [cbn; by rewrite Ht|by destruct Hs].
  - intros s Hs. unfold pause_polling, bind, get, modify, ret.
    destruct (paused s); exact Hs.
  - intros s Hs. unfold resume_polling, bind, get, modify, ret.
    destruct (negb (paused s)); [|exact Hs].
    destruct (negb (thread_alive s)) eqn:Ha; [|exact Hs].
    unfold start_polling_thread, spawn_thread, bind, get, modify, ret.
    destruct (thread_alive s); [exact Hs|].
    destruct (start_time s) eqn:Ht; [cbn; by rewrite Ht|by destruct Hs].
  - intros s Hs. unfold restart_polling, spawn_thread, bind, get, modify, ret, with_lock.
    destruct (thread_alive s); cbn [channels_lock set_stop_event];
      (destruct (channels_lock s); [exact Hs|cbn; discriminate]).
  - apply frame_update_canvas; try (intros; assumption).
    intros name s Hs. unfold assign_color, bind, get. destruct (colors s !! name); exact Hs.
Qed.

Lemma started_clock s : started s -> start_time s <> None.
Proof.
  induction 1 as [args o now|s c _ IH]; [apply start_sets_clock|].
  by apply run_keeps_clock.
Qed.

(** C7. Two pauses in a row leave what one pause leaves. Once the clock
    has been started, as it is in every state in which the buttons exist,
    a resume while not paused returns and changes no clock state
    ([start_time], [pause_accum], [pause_start], [paused]), no channel, no
    color and no log row: it does nothing at all when the thread is alive,
    and otherwise it only clears the stop flag and starts the thread. *)
Theorem C7_pause_resume_idempotent (s : PollSerial) (now now' : float) :
  paused s = false ->
  start_time s <> None ->
  (forall s0 t1 t2, (pause_polling t1 ;; pause_polling t2) s0 = pause_polling t1 s0) /\
  (forall s0, started s0 -> start_time s0 <> None) /\
  exists s',
    resume_polling now now' s = Ok tt s' /\
    start_time s' = start_time s /\ pause_accum s' = pause_accum s /\
    pause_start s' = pause_start s /\ paused s' = paused s /\
    channels s' = channels s /\ colors s' = colors s /\ log_file s' = log_file s /\
    (thread_alive s = true -> s' = s) /\
    (thread_alive s = false ->
       Ok tt s' = (modify (set_stop_event false) ;; spawn_thread) s /\
       thread_alive s' = true /\ stop_event s' = false).
Proof.
  intros Hp Hclock. split; [intros; apply pause_twice|]. split; [apply started_clock|].
  unfold resume_polling, bind, get. rewrite Hp. cbn [negb].
  destruct (thread_alive s) eqn:Halive; cbn [negb].
  - exists s. repeat split; tidy.
  - unfold start_polling_thread, bind, get. rewrite Halive.
    destruct (start_time s) as [t0|] eqn:Ht0; [|by destruct Hclock].
    eexists. split; [reflexivity|]. cbn. rewrite ?Ht0. repeat split; tidy.
Qed.

End Started.

Lemma C7_witness :
  exists s',
    resume_polling 7 7 sample_run = Ok tt s' /\
    start_time s' = start_time sample_run /\ pause_accum s' = pause_accum sample_run.
Proof.
  destruct (@C7_pause_resume_idempotent fixed_pitch sample_run 7 7 eq_refl
              ltac:(discriminate))
    as (_ & _ & s' & Hr & Hst & Hacc & _).
  exists s'. repeat split; assumption.
Defined.

(** ** The registry as a dictionary *)

Lemma channels_get_None name chs :
  channels_get name chs = None <-> ~ In name (map fst chs).
Proof.
  induction chs as [|[n c] chs IH]; cbn; [tauto|].
  destruct (String.eqb_spec n name) as [->|Hn].
  - split; [discriminate|]. intros Hnot. exfalso. apply Hnot. by left.
  - rewrite IH. split; [intros Hnot [?|?]; [congruence|tauto]|tauto].
Qed.

Lemma channels_set_present name ch c chs :
  channels_get name chs = Some c -> map fst (channels_set name ch chs) = map fst chs.
Proof.
  induction chs as [|[n c'] chs IH]; cbn; [discriminate|].
  destruct (String.eqb n name); cbn; [reflexivity|]. intros Hget. by rewrite IH.
Qed.

Lemma channels_set_absent name ch chs :
  channels_get name chs = None -> channels_set name ch chs = chs ++ [(name, ch)].
Proof.
  induction chs as [|[n c'] chs IH]; cbn; [reflexivity|].
  destruct (String.eqb n name); [discriminate|]. intros Hget. by rewrite IH.
Qed.

Lemma channels_set_nodup name ch chs :
  NoDup (map fst chs) -> NoDup (map fst (channels_set name ch chs)).
Proof.
  intros Hnd. destruct (channels_get name chs) as [c|] eqn:Hget.
  - by rewrite (channels_set_present name ch c chs Hget).
  - rewrite (channels_set_absent name ch chs Hget), map_app. cbn.
    apply NoDup_app. split; [exact Hnd|]. split.
    + intros x Hx Hin. apply list_elem_of_singleton in Hin as ->.
      apply channels_get_None in Hget. by apply Hget, list_elem_of_In.
    + apply NoDup_singleton.
Qed.

Lemma channels_clear_names chs :
  map fst (map (fun nc : string * Channel => (fst nc, channel_clear (snd nc))) chs)
  = map fst chs.
Proof. rewrite map_map. reflexivity. Qed.

Lemma init_names_unique args o : NoDup (map fst (channels (init args o))).
Proof.
  unfold init. cbn [channels]. destruct (truthy (arg_request_str args)); [constructor|].
  generalize (parse_cells (arg_cells args)). intros cells.
  assert (NoDup (map fst ([] : list (string * Channel)))) as Hnil by constructor.
  revert Hnil. generalize ([] : list (string * Channel)).
  induction cells as [|c cells IH]; intros acc Hacc; cbn; [exact Hacc|].
  apply IH, channels_set_nodup, Hacc.
Qed.

(** X5. In every state a poller can reach, no two registered channels
    have the same name. *)
Theorem registry_names_unique `{FontMetrics} (s : PollSerial) :
  reachable s -> NoDup (map fst (channels s)).
Proof.
  induction 1 as [args o|s c Hs IH]; [apply init_names_unique|].
  revert IH. apply (registry_run_keeps (fun chs => NoDup (map fst chs))).
  - intros. by apply channels_set_nodup.
  - intros. by apply channels_set_nodup.
  - intros chs Hchs. by rewrite channels_clear_names.
Qed.

Lemma registry_names_unique_witness : NoDup (map fst (channels sample_run)).
Proof. exact (@registry_names_unique fixed_pitch sample_run sample_run_reachable). Defined.

Lemma registered_set name n ch chs :
  registered name chs -> registered name (channels_set n ch chs).
Proof.
  unfold registered. rewrite channels_get_set.
  destruct (String.eqb n name); [by eexists|done].
Qed.

Lemma channels_get_clear name chs :
  channels_get name (map (fun nc : string * Channel => (fst nc, channel_clear (snd nc))) chs)
  = option_map channel_clear (channels_get name chs).
Proof.
  induction chs as [|[n c] chs IH]; cbn; [reflexivity|].
  destruct (String.eqb n name); [reflexivity|exact IH].
Qed.

Lemma init_cells_registered args o :
  Forall (fun c => registered (fst c) (channels (init args o))) (cell_list (init args o)).
Proof.
  unfold init. cbn [channels cell_list].
  destruct (truthy (arg_request_str args)); [constructor|].
  generalize (parse_cells (arg_cells args)). intros cells.
  assert (forall (done : list (string * string)) acc,
            Forall (fun c => registered (fst c) acc) done ->
            Forall (fun c => registered (fst c)
                       (fold_left (fun acc c => channels_set (fst c) (new_channel (snd c)) acc)
                          cells acc)) (done ++ cells)) as Hgen.
  { induction cells as [|c cells IH]; intros done acc Hdone; cbn.
    - by rewrite app_nil_r.
    - replace (done ++ c :: cells) with ((done ++ [c]) ++ cells) by by rewrite <- app_assoc.
      apply IH. apply Forall_app. split.
      + eapply Forall_impl; [exact Hdone|]. intros c' Hc'. by apply registered_set.
      + constructor; [|constructor]. unfold registered. rewrite channels_get_set.
        rewrite String.eqb_refl. by eexists. }
  apply (Hgen [] []). constructor.
Qed.

(** In every state a poller can reach, every cell of the cell list has
    its channel in the registry. *)
Lemma reachable_cells_registered `{FontMetrics} (s : PollSerial) :
  reachable s -> Forall (fun c => registered (fst c) (channels s)) (cell_list s).
Proof.
  induction 1 as [args o|s c Hs IH]; [apply init_cells_registered|].
  rewrite run_cell_list. revert IH.
  apply (registry_run_keeps (fun chs => Forall (fun c => registered (fst c) chs) (cell_list s))).
  - intros name a chs Hall _. eapply Forall_impl; [exact Hall|].
    intros c' Hc'. by apply registered_set.
  - intros name ch t v chs Hall _. eapply Forall_impl; [exact Hall|].
    intros c' Hc'. by apply registered_set.
  - intros chs Hall. eapply Forall_impl; [exact Hall|].
    intros c' [ch Hch]. unfold registered. rewrite channels_get_clear, Hch. by eexists.
Qed.


(** ** Custom-request mode stores nothing *)

(** With an empty registry and the lock held, the loop over the parsed
    pairs blocks on its first pair. *)
Lemma store_blocks t p rest s :
  channels s = [] -> channels_lock s = true ->
  for_each (p :: rest) (store_parsed t) s = Blocked s.
Proof.
  intros Hch Hlock. destruct p as [a v]. cbn [for_each]. unfold bind at 1.
  unfold store_parsed at 1. unfold bind at 1, get. rewrite Hch. cbn [channels_find_addr].
  unfold bind at 1. unfold bind at 1. unfold add_channel_if_missing, with_lock.
  by rewrite Hlock.
Qed.

Lemma empty_registry_store t parsed :
  keeps (fun s => channels s = []) (with_lock (for_each parsed (store_parsed t))).
Proof.
  intros s Hs. unfold with_lock. destruct (channels_lock s); [exact Hs|].
  destruct parsed as [|p rest]; [exact Hs|].
  by rewrite store_blocks.
Qed.

Lemma empty_registry_run `{FontMetrics} c : keeps (fun s => channels s = []) (run c).
Proof.
  apply run_keeps; try (intros; assumption).
  - intros name s Hs. unfold assign_color, bind, get. destruct (colors s !! name); exact Hs.
  - intros name t v s Hs. unfold append_sample, bind, get. by rewrite Hs.
  - apply empty_registry_store.
  - intros s Hs. cbn. by rewrite Hs.
Qed.

Lemma reachable_request_empty `{FontMetrics} s :
  reachable s -> truthy (request_str s) = true -> channels s = [].
Proof.
  induction 1 as [args o|s c Hs IH].
  - unfold init. cbn [request_str channels]. by intros ->.
  - rewrite run_request_str. intros Hreq. by apply empty_registry_run, IH.
Qed.

(** X6. In custom-request mode no sample is ever stored: in every state
    a poller can reach in that mode the registry is empty, and a cycle
    whose response parses to at least one pair ends blocked on the lock
    whenever it gets as far as that response. *)
Theorem request_mode_stores_nothing `{FontMetrics} (s : PollSerial) (now : float)
    (io : SerialIO) :
  reachable s ->
  truthy (request_str s) = true ->
  channels s = [] /\
  channels (state_of (poll_cycle now io s)) = [] /\
  (forall ts, cycle_timestamp now s = Ok ts s ->
     parse_response (default "" (rx io)) <> [] ->
     exists s', poll_cycle now io s = Blocked s').
Proof.
  intros Hreach Hreq. pose proof (reachable_request_empty s Hreach Hreq) as Hch.
  split; [exact Hch|]. split; [exact (empty_registry_run (Cycle now io) s Hch)|].
  intros ts Hts Hparse.
  unfold poll_cycle. unfold bind at 1, get. unfold bind at 1. rewrite Hts, Hreq.
  unfold bind at 1. unfold send_request at 1, modify.
  unfold bind at 1. unfold read_all_response. unfold bind at 1, modify, ret.
  change (match rx io with Some s0 => s0 | None => "" end) with (default "" (rx io)).
  destruct (parse_response (default "" (rx io))) as [|p rest]; [congruence|].
  unfold bind at 1. unfold with_lock at 1. cbn [channels_lock set_serial].
  destruct (channels_lock s); [by eexists|].
  rewrite store_blocks by (cbn; assumption || reflexivity). by eexists.
Qed.

Lemma request_mode_stores_nothing_witness :
  channels sample_request_run = [] /\
  channels (state_of (poll_cycle 101.5 io_scenario_D sample_request_run)) = [] /\
  (forall ts, cycle_timestamp 101.5 sample_request_run = Ok ts sample_request_run ->
     parse_response (default "" (rx io_scenario_D)) <> [] ->
     exists s', poll_cycle 101.5 io_scenario_D sample_request_run = Blocked s').
Proof.
  apply (@request_mode_stores_nothing fixed_pitch);
    [exact sample_request_run_reachable|reflexivity].
Defined.

(** ** A cycle never fails on a missing channel *)

Lemma cycle_timestamp_cases now s :
  (exists ts, cycle_timestamp now s = Ok ts s) \/
  (exists e, cycle_timestamp now s = Raised e s /\ e <> Py.KeyError).
Proof.
  unfold cycle_timestamp, bind, get. destruct (start_time s) as [t0|].
  - destruct (Py.int_of_float _) as [e|z] eqn:Hz.
    + right. exists e. split; [reflexivity|].
      destruct (int_of_float_exn _ _ Hz) as [-> | ->]; discriminate.
    + left. by exists z.
  - right. exists Py.TypeError. split; [reflexivity|discriminate].
Qed.

(** X7. In every state a poller can reach, every cell of the cell list
    has its channel in the registry, and a poll cycle never raises
    KeyError. *)
Theorem cycle_never_key_error `{FontMetrics} (s : PollSerial) (now : float) (io : SerialIO) :
  reachable s ->
  Forall (fun c => registered (fst c) (channels s)) (cell_list s) /\
  forall s', poll_cycle now io s <> Raised Py.KeyError s'.
Proof.
  intros Hreach. pose proof (reachable_cells_registered s Hreach) as Hreg.
  split; [exact Hreg|]. intros s'.
  destruct (cycle_timestamp_cases now s) as [[ts Hts]|(e & Hts & He)].
  2:{ unfold poll_cycle. unfold bind at 1, get. unfold bind at 1. rewrite Hts. congruence. }
  destruct (truthy (request_str s)) eqn:Hreq.
  - pose proof (reachable_request_empty s Hreach Hreq) as Hch.
    unfold poll_cycle. unfold bind at 1, get. unfold bind at 1. rewrite Hts, Hreq.
    unfold bind at 1. unfold send_request at 1, modify.
    unfold bind at 1. unfold read_all_response. unfold bind at 1, modify, ret.
    destruct (parse_response _) as [|p rest].
    + unfold bind at 1. unfold log_cycle_querymode, bind, get.
      cbn [log_file set_serial]. destruct (log_file s); discriminate.
    + unfold bind at 1. unfold with_lock at 1. cbn [channels_lock set_serial].
      destruct (channels_lock s); [discriminate|].
      rewrite store_blocks by (cbn; assumption || reflexivity). discriminate.
  - destruct (channels_lock s) eqn:Hlock.
    + unfold poll_cycle. unfold bind at 1, get. unfold bind at 1. rewrite Hts, Hreq.
      unfold bind at 1. rewrite send_requests_ok.
      unfold bind at 1. unfold read_all_response. unfold bind at 1, modify, ret.
      unfold bind at 1. unfold with_lock. cbn [channels_lock set_serial]. rewrite Hlock.
      discriminate.
    + destruct (cell_mode_cycle s now io ts Hreq Hlock Hts Hreg) as (s1 & -> & _).
      discriminate.
Qed.

Lemma cycle_never_key_error_witness :
  Forall (fun c => registered (fst c) (channels sample_run)) (cell_list sample_run) /\
  forall s', poll_cycle 101.5 io_dead sample_run <> Raised Py.KeyError s'.
Proof. exact (@cycle_never_key_error fixed_pitch sample_run 101.5 io_dead sample_run_reachable). Defined.

(** ** Colors *)

Lemma assign_color_keeps_lookup name col name' :
  keeps (fun s => colors s !! name = Some col) (assign_color name').
Proof.
  intros s Hs. unfold assign_color, bind, get.
  destruct (colors s !! name') eqn:Hn; [exact Hs|].
  unfold modify, ret. cbn [state_of colors set_colors].
  rewrite lookup_insert_ne; [exact Hs|]. intros ->. congruence.
Qed.

(** X8. A color, once assigned to a name, is the color of that name
    after any command: a cycle, start, pause, resume, restart or a
    rendering pass. *)
Theorem color_is_stable `{FontMetrics} (c : Command) (s : PollSerial) (name col : string) :
  colors s !! name = Some col ->
  colors (state_of (run c s)) !! name = Some col.
Proof.
  revert s. apply (run_keeps (fun s => colors s !! name = Some col));
    try (intros; assumption).
  - intros name'. apply assign_color_keeps_lookup.
  - intros n t v s Hs. unfold append_sample, bind, get.
    destruct (channels_get n (channels s)); exact Hs.
  - apply keeps_store; [intros; assumption| |].
    + intros n a s Hs. unfold add_channel_if_missing, with_lock.
      destruct (channels_lock s); [exact Hs|]. unfold bind, get. cbn [channels set_lock].
      destruct (channels_get n (channels s)); exact Hs.
    + intros n t v s Hs. unfold append_sample, bind, get.
      destruct (channels_get n (channels s)); exact Hs.
Qed.

Lemma color_is_stable_witness :
  colors (state_of (@run fixed_pitch (Restart 200) sample_rendered)) !! "B" = Some "#3cb44b".
Proof. apply (@color_is_stable fixed_pitch). vm_compute. reflexivity. Defined.


Lemma assign_color_palette name : keeps palette_ok (assign_color name).
Proof.
  intros s [Hsize Hin]. unfold assign_color, bind, get.
  destruct (colors s !! name) eqn:Hn; [by split|].
  assert (In (nth (next_color s mod length color_cycle) color_cycle "") color_cycle) as Hc0
    by (apply nth_In, Nat.mod_upper_bound; discriminate).
  revert Hc0. generalize (nth (next_color s mod length color_cycle) color_cycle "").
  intros c0 Hc0.
  unfold modify, ret. cbn [state_of]. unfold palette_ok. cbn [colors next_color set_colors].
  split.
  - rewrite map_size_insert_None by exact Hn. by rewrite Hsize.
  - intros name' col. rewrite lookup_insert. case_decide.
    + intros Heq. by injection Heq as <-.
    + apply Hin.
Qed.

(** X9. In every state a poller can reach, the palette index is the
    number of names that have a color, and every assigned color is one of
    the fifteen of the palette. *)
Theorem palette_invariant `{FontMetrics} (s : PollSerial) :
  reachable s ->
  next_color s = size (colors s) /\
  forall name col, colors s !! name = Some col -> In col color_cycle.
Proof.
  induction 1 as [args o|s c Hs IH].
  - split; [reflexivity|]. intros name col. unfold init. cbn [colors].
    by rewrite lookup_empty.
  - revert IH. apply (run_keeps palette_ok); try (intros; assumption).
    + apply assign_color_palette.
    + intros n t v s0 Hs0. unfold append_sample, bind, get.
      destruct (channels_get n (channels s0)); exact Hs0.
    + apply keeps_store; [intros; assumption| |].
      * intros n a s0 Hs0. unfold add_channel_if_missing, with_lock.
        destruct (channels_lock s0); [exact Hs0|]. unfold bind, get. cbn [channels set_lock].
        destruct (channels_get n (channels s0)); exact Hs0.
      * intros n t v s0 Hs0. unfold append_sample, bind, get.
        destruct (channels_get n (channels s0)); exact Hs0.
Qed.

Lemma palette_invariant_witness :
  next_color sample_rendered = size (colors sample_rendered) /\
  forall name col, colors sample_rendered !! name = Some col -> In col color_cycle.
Proof.
  apply (@palette_invariant fixed_pitch). apply reach_step, sample_run_reachable.
Defined.


(** X10. Names that have no color yet, given to [assign_color] one after
    the other, get the palette colors in that order, starting at the
    palette index and wrapping around after the last color. *)
Theorem colors_in_first_seen_order (names : list string) (s : PollSerial) :
  NoDup names ->
  Forall (fun n => colors s !! n = None) names ->
  exists s',
    assign_colors names s
    = Ok (map (fun i => nth ((next_color s + i) mod length color_cycle) color_cycle "")
            (seq 0 (length names))) s' /\
    next_color s' = (next_color s + length names)%nat.
Proof.
  revert s. induction names as [|n names IH]; intros s Hnd Hnone.
  - exists s. split; [reflexivity|]. cbn. lia.
  - apply NoDup_cons in Hnd as [Hn Hnd]. apply Forall_cons in Hnone as [Hnc Hnone].
    cbn [assign_colors]. unfold bind at 1. unfold assign_color at 1. unfold bind at 1, get.
    rewrite Hnc. unfold bind at 1, modify, ret.
    set (c := nth (next_color s mod length color_cycle) color_cycle "").
    set (s1 := set_colors (<[n:=c]> (colors s)) (S (next_color s)) s).
    destruct (IH s1 Hnd) as (s' & Hrest & Hnext).
    { eapply Forall_forall. intros m Hm. subst s1. cbn [colors set_colors].
      rewrite lookup_insert_ne by (intros ->; by apply Hn).
      by eapply Forall_forall in Hnone. }
    exists s'. split.
    + unfold bind at 1. rewrite Hrest. unfold ret. f_equal.
      cbn [length seq map]. f_equal.
      * subst c. by rewrite Nat.add_0_r.
      * rewrite <- seq_shift, map_map. apply map_ext. intros i.
        subst s1. cbn [next_color set_colors]. f_equal. f_equal. lia.
    + rewrite Hnext. subst s1. cbn [next_color set_colors length]. lia.
Qed.

Lemma colors_in_first_seen_order_witness :
  exists s',
    assign_colors ["B"; "A"] fresh_poller
    = Ok (map (fun i => nth ((next_color fresh_poller + i) mod length color_cycle)
                          color_cycle "") (seq 0 (length ["B"; "A"]))) s' /\
    next_color s' = (next_color fresh_poller + length ["B"; "A"])%nat.
Proof.
  apply colors_in_first_seen_order.
  - apply NoDup_cons. split; [|apply NoDup_singleton].
    intros Hin. apply list_elem_of_singleton in Hin. discriminate.
  - repeat constructor.
Defined.

(** ** The log *)

(** A property that only the log bears on is kept by every command when
    it is kept by the writing of a row. *)
Section LogKeeps.
Context `{FontMetrics}.
Variable PL : option (list string) -> Prop.

Let P (s : PollSerial) : Prop := PL (log_file s).

Lemma log_keeps_color name : keeps P (assign_color name).
Proof.
  intros s Hs. unfold assign_color, bind, get. destruct (colors s !! name); exact Hs.
Qed.

Lemma log_keeps_append n t v : keeps P (append_sample n t v).
Proof.
  intros s Hs. unfold append_sample, bind, get.
  destruct (channels_get n (channels s)); exact Hs.
Qed.

Lemma log_keeps_add n a : keeps P (add_channel_if_missing n a).
Proof.
  intros s Hs. unfold add_channel_if_missing, with_lock.
  destruct (channels_lock s); [exact Hs|]. unfold bind, get. cbn [channels set_lock].
  destruct (channels_get n (channels s)); exact Hs.
Qed.

Lemma log_keeps_store t parsed : keeps P (with_lock (for_each parsed (store_parsed t))).
Proof.
  apply keeps_store; [intros; assumption|apply log_keeps_add|apply log_keeps_append].
Qed.

Lemma log_keeps_start now : keeps P (start_polling_thread now).
Proof. apply frame_start; intros; assumption. Qed.

Lemma log_keeps_pause now : keeps P (pause_polling now).
Proof. apply frame_pause; intros; assumption. Qed.

Lemma log_keeps_resume now now' : keeps P (resume_polling now now').
Proof. apply frame_resume; intros; assumption. Qed.

Lemma log_keeps_restart now : keeps P (restart_polling now).
Proof. apply frame_restart; intros; assumption. Qed.

Lemma log_keeps_render w h : keeps P (update_canvas w h).
Proof. apply frame_update_canvas; try (intros; assumption). apply log_keeps_color. Qed.

Hypothesis PL_row : forall rows row, PL (Some rows) -> PL (Some (rows ++ [row])).

Lemma log_run_keeps c : keeps P (run c).
Proof.
  apply run_keeps; try (intros; assumption).
  - apply log_keeps_color.
  - apply log_keeps_append.
  - apply log_keeps_store.
  - intros rows row s Hs Hrows. unfold P in *. cbn [log_file set_log_file].
    rewrite Hrows in Hs. by apply PL_row.
Qed.

End LogKeeps.

(** X11. A command never removes or rewrites a row of the log: the rows
    written before are a prefix of the rows after it. A poller without a
    log file stays without one, and only a poll cycle writes: start,
    pause, resume, restart and a rendering pass leave the log as it is. *)
Theorem log_is_append_only `{FontMetrics} (c : Command) (s : PollSerial)
    (rows : list string) :
  log_file s = Some rows ->
  (exists more, log_file (state_of (run c s)) = Some (rows ++ more)) /\
  (forall s0 c0, log_file s0 = None -> log_file (state_of (run c0 s0)) = None) /\
  (forall s0 now now' w h,
     log_file (state_of (run (Start now) s0)) = log_file s0 /\
     log_file (state_of (run (Pause now) s0)) = log_file s0 /\
     log_file (state_of (run (Resume now now') s0)) = log_file s0 /\
     log_file (state_of (run (Restart now) s0)) = log_file s0 /\
     log_file (state_of (run (Render w h) s0)) = log_file s0).
Proof.
  intros Hlog. split; [|split].
  - apply (log_run_keeps (fun L => exists more, L = Some (rows ++ more))).
    + intros rows' row [more Hmore]. exists (more ++ [row]).
      injection Hmore as ->. by rewrite app_assoc.
    + exists []. by rewrite app_nil_r.
  - intros s0 c0. apply (log_run_keeps (fun L => L = None)). discriminate.
  - intros s0 now now' w h. repeat split.
    + by apply (log_keeps_start (fun L => L = log_file s0)).
    + by apply (log_keeps_pause (fun L => L = log_file s0)).
    + by apply (log_keeps_resume (fun L => L = log_file s0)).
    + by apply (log_keeps_restart (fun L => L = log_file s0)).
    + by apply (log_keeps_render (fun L => L = log_file s0)).
Qed.

Lemma log_is_append_only_witness :
  exists more,
    log_file (state_of (@run fixed_pitch (Cycle 101.5 io_dead) sample_run))
    = Some (["Time_ms, A, B" +:+ nl; "500, 1, 1" +:+ nl] ++ more).
Proof.
  apply (@log_is_append_only fixed_pitch (Cycle 101.5 io_dead) sample_run). reflexivity.
Defined.

(** ** The loop while paused or stopped *)

(** X12. While the poller is paused or its stop flag is set, the poll
    loop does nothing over any number of passes: no request is sent,
    nothing is read, appended or logged. *)
Theorem idle_loop_does_nothing (schedule : list (float * SerialIO)) (s : PollSerial) :
  paused s = true \/ stop_event s = true ->
  poll_passes schedule s = Ok tt s.
Proof.
  intros Hidle. induction schedule as [|[now io] rest IH]; [reflexivity|].
  cbn [poll_passes]. unfold bind, get.
  destruct (stop_event s) eqn:Hstop; [reflexivity|].
  destruct Hidle as [Hp|Hs]; [|discriminate]. rewrite Hp. exact IH.
Qed.

Lemma idle_loop_does_nothing_witness :
  poll_passes [(101.5%float, io_dead); (102.5%float, io_dead)]
    (state_of (pause_polling 101 sample_run))
  = Ok tt (state_of (pause_polling 101 sample_run)).
Proof. apply idle_loop_does_nothing. left. reflexivity. Defined.

(** ** Pause followed by resume *)

(** X13. On a poller that is not paused, a pause at clock reading [t1]
    followed by a resume at [t2] leaves it not paused, with [pause_start]
    cleared and [t2 - t1] added to [pause_accum]; nothing else changes.
    When the reading at the pause was 0.0 the resume takes it for missing
    and adds the difference of its own two readings instead. *)
Theorem pause_then_resume (s : PollSerial) (t1 t2 t2' : float) :
  paused s = false ->
  (pause_polling t1 ;; resume_polling t2 t2') s
  = Ok tt (set_clock (start_time s)
             (pause_accum s + (t2 - (if PrimFloat.eqb t1 0 then t2' else t1)))%float
             None false s).
Proof.
  intros Hp. destruct s. cbn in Hp. subst.
  unfold bind, pause_polling, resume_polling, get, modify. cbn. reflexivity.
Qed.

Lemma pause_then_resume_witness :
  exists s', (pause_polling 105 ;; resume_polling 107 107) sample_run = Ok tt s' /\
             pause_accum s' = 2%float /\ paused s' = false /\ pause_start s' = None.
Proof.
  eexists. split; [apply pause_then_resume; reflexivity|].
  repeat split; reflexivity.
Defined.

(** ** The rendering pass and the lock *)

Section LockNeutral.

Lemma neutral_ret {A} (a : A) : lock_neutral (ret a).
Proof. intros s. split; [discriminate|reflexivity]. Qed.

Lemma neutral_get : lock_neutral get.
Proof. intros s. split; [discriminate|reflexivity]. Qed.

Lemma neutral_raise {A} e : lock_neutral (@raise A e).
Proof. intros s. split; [discriminate|reflexivity]. Qed.

Lemma neutral_lift {A} (r : Py.Exn + A) : lock_neutral (lift r).
Proof. destruct r; [apply neutral_raise|apply neutral_ret]. Qed.

Lemma neutral_modify f :
  (forall s, channels_lock (f s) = channels_lock s) -> lock_neutral (modify f).
Proof. intros Hf s. split; [discriminate|apply Hf]. Qed.

Lemma neutral_bind {A B} (m : M A) (f : A -> M B) :
  lock_neutral m -> (forall a, lock_neutral (f a)) -> lock_neutral (bind m f).
Proof.
  intros Hm Hf s. unfold bind. destruct (Hm s) as [Hnb Hl].
  destruct (m s) as [a s1|e s1|s1]; cbn in *.
  - destruct (Hf a s1) as [Hnb' Hl']. split; [exact Hnb'|congruence].
  - split; [discriminate|exact Hl].
  - by destruct (Hnb s1).
Qed.

Lemma neutral_for_each {A} (l : list A) (body : A -> M unit) :
  (forall x, lock_neutral (body x)) -> lock_neutral (for_each l body).
Proof.
  intros Hb. induction l as [|x l IH]; cbn [for_each]; [apply neutral_ret|].
  apply neutral_bind; [apply Hb|intros _; exact IH].
Qed.

Lemma neutral_fold_m {A B} (l : list A) (acc : B) (body : B -> A -> M B) :
  (forall b x, lock_neutral (body b x)) -> lock_neutral (fold_m l acc body).
Proof.
  intros Hb. revert acc. induction l as [|x l IH]; intros acc; cbn [fold_m];
    [apply neutral_ret|].
  apply neutral_bind; [apply Hb|intros acc'; apply IH].
Qed.

Lemma neutral_assign_color name : lock_neutral (assign_color name).
Proof.
  unfold assign_color. apply neutral_bind; [apply neutral_get|]. intros s.
  destruct (colors s !! name); [apply neutral_ret|].
  apply neutral_bind; [|intros _; apply neutral_ret]. by apply neutral_modify.
Qed.

Lemma neutral_create it : lock_neutral (create it).
Proof. by apply neutral_modify. Qed.

(** Under [with self.channels_lock], a body that leaves the lock alone
    ends with the lock released when the lock was free. *)
Lemma with_lock_neutral {A} (body : M A) s :
  lock_neutral body -> channels_lock s = false ->
  (forall s', with_lock body s <> Blocked s') /\
  channels_lock (state_of (with_lock body s)) = false.
Proof.
  intros Hb Hfree. unfold with_lock. rewrite Hfree.
  destruct (Hb (set_lock true s)) as [Hnb _].
  destruct (body (set_lock true s)) as [a s1|e s1|s1]; cbn.
  - split; [discriminate|reflexivity].
  - split; [discriminate|reflexivity].
  - by destruct (Hnb s1).
Qed.

End LockNeutral.

Section RenderLock.
Context `{FontMetrics}.

Lemma neutral_draw_channel left top right bottom x_min x_max placed nc :
  lock_neutral (draw_channel left top right bottom x_min x_max placed nc).
Proof.
  destruct nc as [name ch]. unfold draw_channel.
  destruct (Deque.items (xs ch)); [apply neutral_ret|].
  apply neutral_bind; [apply neutral_lift|]. intros pts.
  apply neutral_bind; [apply neutral_assign_color|]. intros color.
  apply neutral_bind; [apply neutral_for_each; intros ?; apply neutral_create|]. intros _.
  apply neutral_fold_m. intros placed' i. unfold draw_gridline.
  apply neutral_bind; [apply neutral_lift|]. intros yc.
  apply neutral_bind; [apply neutral_create|]. intros _.
  apply neutral_bind; [apply neutral_create|]. intros _. apply neutral_ret.
Qed.

Lemma neutral_legend_entry y x nc : lock_neutral (legend_entry y x nc).
Proof.
  destruct nc as [name ch]. unfold legend_entry.
  apply neutral_bind; [apply neutral_assign_color|]. intros color.
  apply neutral_bind; [apply neutral_create|]. intros _. apply neutral_ret.
Qed.

(** X14. A rendering pass that finds the lock free never blocks, and
    whether it returns or raises (a sample that has no pixel position) it
    leaves the lock free. *)
Theorem render_returns_the_lock (w h : Z) (s : PollSerial) :
  channels_lock s = false ->
  (forall s', update_canvas w h s <> Blocked s') /\
  channels_lock (state_of (update_canvas w h s)) = false.
Proof.
  intros Hfree. unfold update_canvas. unfold bind at 1, modify.
  destruct ((w <? 10) || (h <? 10)); [split; [discriminate|exact Hfree]|].
  unfold bind at 1. rewrite canvas_create.
  apply with_lock_neutral; [|exact Hfree].
  apply neutral_bind; [apply neutral_get|]. intros s0.
  destruct (Py.min_ints _); [|apply neutral_create].
  destruct (Py.max_ints _); [|apply neutral_create].
  apply neutral_bind; [apply neutral_fold_m; intros; apply neutral_draw_channel|]. intros _.
  apply neutral_bind; [apply neutral_create|]. intros _.
  apply neutral_bind; [apply neutral_create|]. intros _.
  apply neutral_bind; [|intros _; apply neutral_ret].
  apply neutral_fold_m. intros. apply neutral_legend_entry.
Qed.

(** X15. A rendering pass writes the canvas and the colors only: the
    registry with its samples, the log, the clock, the flags, the thread
    and the transport trace are after it what they were before, however
    it ends. *)
Theorem render_reads_the_data_only (w h : Z) (s : PollSerial) :
  same_data s (state_of (update_canvas w h s)).
Proof.
  apply (frame_update_canvas (same_data s)).
  - intros b s0 Hs0. exact Hs0.
  - intros c s0 Hs0. exact Hs0.
  - intros name s0 Hs0. unfold assign_color, bind, get.
    destruct (colors s0 !! name); exact Hs0.
  - repeat split.
Qed.

(** X16. While the lock is held (as it stays after a request-mode cycle
    has blocked), a rendering pass on a canvas of at least 10 by 10 clears
    the canvas, draws the border and then blocks, and a restart blocks
    before it clears a buffer or resets the clock. *)
Theorem held_lock_freezes_the_window (w h : Z) (now : float) (s : PollSerial) :
  channels_lock s = true ->
  10 <= w -> 10 <= h ->
  (exists s', update_canvas w h s = Blocked s' /\
              canvas s' = [Rectangle 70 20 (w - 20) (h - 70) "" "white"]) /\
  (exists s', restart_polling now s = Blocked s' /\
              channels s' = channels s /\ start_time s' = start_time s).
Proof.
  intros Hheld Hw Hh. split.
  - unfold update_canvas. unfold bind at 1, modify.
    destruct (Z.ltb_spec w 10); [lia|]. destruct (Z.ltb_spec h 10); [lia|].
    cbn [orb]. unfold bind at 1. rewrite canvas_create. unfold with_lock.
    cbn [channels_lock set_canvas]. rewrite Hheld. eexists. split; reflexivity.
  - destruct s as [rq cl chs cols nc lk st pa ps pd se pt sw sr lf cv].
    cbn in Hheld. subst lk.
    unfold restart_polling, bind, get, modify, ret, with_lock.
    destruct (thread_alive _); cbn; eexists; (split; [reflexivity|]); split; reflexivity.
Qed.

End RenderLock.

Lemma held_lock_freezes_the_window_witness :
  (exists s', @update_canvas fixed_pitch 800 600 sample_request_run = Blocked s' /\
              canvas s' = [Rectangle 70 20 (800 - 20) (600 - 70) "" "white"]) /\
  (exists s', restart_polling 200 sample_request_run = Blocked s' /\
              channels s' = channels sample_request_run /\
              start_time s' = start_time sample_request_run).
Proof.
  apply (@held_lock_freezes_the_window fixed_pitch); [reflexivity|lia|lia].
Defined.

Lemma render_returns_the_lock_witness :
  (forall s', @update_canvas fixed_pitch 800 600 sample_run <> Blocked s') /\
  channels_lock (state_of (@update_canvas fixed_pitch 800 600 sample_run)) = false.
Proof. apply (@render_returns_the_lock fixed_pitch). reflexivity. Defined.

(** ** Parsing a response *)

Lemma append_cons (c : ascii) (a b : string) : String c a +:+ b = String c (a +:+ b).
Proof. reflexivity. Qed.

Lemma append_nil (b : string) : "" +:+ b = b.
Proof. reflexivity. Qed.

Lemma length_append (a b : string) :
  String.length (a +:+ b) = (String.length a + String.length b)%nat.
Proof.
  induction a as [|c a IH]; [reflexivity|].
  rewrite append_cons. cbn [String.length Nat.add]. f_equal. exact IH.
Qed.

Lemma append_assoc (a b c : string) : (a +:+ b) +:+ c = a +:+ (b +:+ c).
Proof.
  induction a as [|x a IH]; [reflexivity|].
  rewrite !append_cons. f_equal. exact IH.
Qed.

(** A run of characters of a class is taken whole when what follows it
    does not start with a character of the class. *)
Lemma span_app (p : ascii -> bool) (a r : string) :
  all_chars p a = true ->
  match r with EmptyString => True | String c _ => p c = false end ->
  span p (a +:+ r) = (a, r).
Proof.
  intros Ha Hr. induction a as [|c a IH].
  - rewrite append_nil. destruct r as [|c r]; [reflexivity|]. cbn. by rewrite Hr.
  - cbn [all_chars] in Ha. apply andb_prop in Ha as [Hc Ha].
    rewrite append_cons. cbn [span]. by rewrite Hc, IH.
Qed.

Lemma span_all (p : ascii -> bool) (s : string) : all_chars p (fst (span p s)) = true.
Proof.
  induction s as [|c s IH]; cbn; [reflexivity|].
  destruct (p c) eqn:Hc; [|reflexivity].
  destruct (span p s) as [a b]. cbn in *. by rewrite Hc.
Qed.

Lemma findall_skip (p r : string) (n : nat) :
  findall_from (String.length p + n) (p +:+ r) = findall_from n r.
Proof.
  induction p as [|c p IH]; [reflexivity|].
  rewrite append_cons. cbn [String.length Nat.add findall_from]. exact IH.
Qed.

Lemma match_token_well_formed (s : string) (p : string * string) :
  match_token s = Some p -> well_formed_pair p = true.
Proof.
  unfold match_token. destruct s as [|c s]; [discriminate|].
  destruct (Ascii.eqb_spec c "$") as [->|Hc].
  2:{ destruct c as [[] [] [] [] [] [] [] []]; try discriminate. by destruct Hc. }
  pose proof (span_all Py.is_digit s) as Hd.
  destruct (span Py.is_digit s) as [[|d ds] [|c2 r2]]; try discriminate.
  destruct (Ascii.eqb_spec c2 ":") as [->|Hc2].
  2:{ destruct c2 as [[] [] [] [] [] [] [] []]; try discriminate. by destruct Hc2. }
  pose proof (span_all is_value_char r2) as Hv.
  destruct (span is_value_char r2) as [[|v vs] r3]; [discriminate|].
  intros [= <-]. unfold well_formed_pair. cbn [fst snd] in *.
  by rewrite Hd, Hv.
Qed.

Lemma findall_well_formed (s : string) (skip : nat) :
  Forall (fun p => well_formed_pair p = true) (findall_from skip s).
Proof.
  revert skip. induction s as [|c s IH]; intros skip; cbn [findall_from]; [constructor|].
  destruct skip as [|k]; [|apply IH].
  destruct (match_token (String c s)) as [[a v]|] eqn:Hm; [|apply IH].
  constructor; [|apply IH]. by apply match_token_well_formed in Hm.
Qed.

(** X17. On a response whose characters are code points below 256,
    which is what a [string] holds and where [\d] matches the ASCII digits
    alone, every pair [parse_response] returns has a non-empty run of the
    digits 0-9 as its address and a non-empty run of characters of
    [0-9A-Za-z.-] as its value. *)
Theorem parsed_pairs_well_formed (resp : string) :
  Forall (fun p => well_formed_pair p = true) (parse_response resp).
Proof.
  unfold parse_response. destruct (String.eqb resp ""); [constructor|].
  apply findall_well_formed.
Qed.

Lemma tokens_start (pairs : list (string * string)) :
  match concat_str (map token pairs) with
  | EmptyString => True
  | String c _ => c = "$"%char
  end.
Proof. destruct pairs as [|p pairs]; cbn; [exact I|reflexivity]. Qed.

Lemma findall_tokens (pairs : list (string * string)) :
  Forall (fun p => well_formed_pair p = true) pairs ->
  findall_from 0 (concat_str (map token pairs)) = pairs.
Proof.
  induction 1 as [|[a v] pairs Hp _ IH]; [reflexivity|].
  unfold well_formed_pair in Hp. cbn [fst snd] in Hp.
  apply andb_prop in Hp as [Hp Hv]. apply andb_prop in Hp as [Hp Hvn].
  apply andb_prop in Hp as [Han Ha].
  cbn [map concat_str fold_right]. unfold token at 1. cbn [fst snd].
  set (rest := concat_str (map token pairs)) in *.
  change (fold_right String.append "" (map token pairs)) with rest.
  rewrite !append_assoc, append_cons, append_nil.
  cbn [findall_from]. unfold match_token.
  assert (Hrest : match rest with EmptyString => True
                  | String c _ => is_value_char c = false end).
  { pose proof (tokens_start pairs) as Hs. fold rest in Hs.
    destruct rest as [|c r]; [exact I|]. by subst c. }
  rewrite append_cons, append_nil.
  rewrite (span_app Py.is_digit a (String ":" (v +:+ rest)) Ha eq_refl).
  destruct a as [|d ds]; [discriminate|].
  rewrite (span_app is_value_char v rest Hv Hrest).
  destruct v as [|v0 vs]; [discriminate|].
  f_equal.
  replace (String d ds +:+ String ":" (String v0 vs +:+ rest))
    with ((String d ds +:+ String ":" (String v0 vs)) +:+ rest)
    by (rewrite append_assoc; reflexivity).
  replace (String.length (String d ds) + 1 + String.length (String v0 vs))%nat
    with (String.length (String d ds +:+ String ":" (String v0 vs)) + 0)%nat
    by (rewrite length_append; cbn; lia).
  rewrite findall_skip. exact IH.
Qed.

Lemma rstrip_app_nonspace (x y : string) (c : ascii) :
  Py.is_space c = false ->
  Py.rstrip (x +:+ String c y) = x +:+ String c (Py.rstrip y).
Proof.
  intros Hc. induction x as [|d x IH].
  - rewrite !append_nil. cbn [Py.rstrip]. rewrite Hc. by destruct (Py.rstrip y).
  - rewrite !append_cons. cbn [Py.rstrip]. rewrite IH. by destruct x.
Qed.

Lemma before_last_comma_free (y : string) :
  all_chars (fun c => negb (is_comma c)) y = true -> before_last_comma y = None.
Proof.
  induction y as [|c y IH]; cbn; [reflexivity|]. intros Hy.
  apply andb_prop in Hy as [Hc Hy]. rewrite (IH Hy).
  unfold is_comma in Hc. by destruct (Ascii.eqb c ",").
Qed.

Lemma before_last_comma_app (x y : string) :
  all_chars (fun c => negb (is_comma c)) y = true ->
  before_last_comma (x +:+ String "," y) = Some x.
Proof.
  intros Hy. induction x as [|c x IH].
  - rewrite append_nil. cbn [before_last_comma]. by rewrite (before_last_comma_free y Hy).
  - rewrite append_cons. cbn [before_last_comma]. by rewrite IH.
Qed.

Lemma rstrip_comma_free (y : string) :
  all_chars (fun c => negb (is_comma c)) y = true ->
  all_chars (fun c => negb (is_comma c)) (Py.rstrip y) = true.
Proof.
  induction y as [|c y IH]; cbn [all_chars Py.rstrip]; [reflexivity|]. intros Hy.
  apply andb_prop in Hy as [Hc Hy]. specialize (IH Hy).
  destruct (Py.rstrip y) as [|r rs].
  - destruct (Py.is_space c); cbn; [reflexivity|by rewrite Hc].
  - cbn [all_chars] in *. by rewrite Hc, IH.
Qed.

Lemma lstrip_nonspace (c : ascii) (s : string) :
  Py.is_space c = false -> Py.lstrip (String c s) = String c s.
Proof. intros Hc. cbn. by rewrite Hc. Qed.

(** X18. Parsing inverts the response format: for well-formed pairs
    and a checksum without a comma, the response
    [$a1:v1$a2:v2...,<checksum>] parses to exactly the pairs, in order.
    The checksum is cut off and never looked at. *)
Theorem parse_inverts_response_format (pairs : list (string * string)) (crc : string) :
  Forall (fun p => well_formed_pair p = true) pairs ->
  all_chars (fun c => negb (is_comma c)) crc = true ->
  parse_response (response_of pairs crc) = pairs.
Proof.
  intros Hp Hcrc. unfold parse_response, response_of.
  set (body := concat_str (map token pairs)).
  assert (Hstrip : Py.strip (body +:+ "," +:+ crc) = body +:+ String "," (Py.rstrip crc)).
  { unfold Py.strip. pose proof (tokens_start pairs) as Hs. fold body in Hs.
    destruct body as [|c b].
    - rewrite append_nil, append_cons, append_nil.
      rewrite lstrip_nonspace by reflexivity.
      apply (rstrip_app_nonspace "" crc ","). reflexivity.
    - subst c. rewrite !append_cons, append_nil.
      rewrite lstrip_nonspace by reflexivity.
      rewrite <- (append_cons "$" b). apply rstrip_app_nonspace. reflexivity. }
  assert (Hne : String.eqb (body +:+ "," +:+ crc) "" = false).
  { destruct body; reflexivity. }
  rewrite Hne, Hstrip.
  rewrite before_last_comma_app by (by apply rstrip_comma_free).
  by apply findall_tokens.
Qed.

Lemma parse_inverts_response_format_witness :
  parse_response (response_of [("10", "1.5"); ("20", "-3"); ("7", "ERR")] "A1F3 ")
  = [("10", "1.5"); ("20", "-3"); ("7", "ERR")].
Proof. apply parse_inverts_response_format; [repeat constructor|reflexivity]. Defined.

Lemma foldl_insert_last (l : list (string * string)) (m : gmap string string) (k : string) :
  foldl (fun m kv => <[fst kv := snd kv]> m) m l !! k
  = match last (List.filter (fun kv => String.eqb (fst kv) k) l) with
    | Some kv => Some (snd kv)
    | None => m !! k
    end.
Proof.
  revert m. induction l as [|[a v] l IH]; intros m; [reflexivity|].
  cbn [foldl List.filter fst snd]. rewrite IH.
  destruct (String.eqb_spec a k) as [->|Hne].
  - rewrite last_cons.
    destruct (last (List.filter (fun kv => String.eqb (fst kv) k) l)); [reflexivity|].
    cbn. apply lookup_insert_eq.
  - destruct (last (List.filter (fun kv => String.eqb (fst kv) k) l)); [reflexivity|].
    by apply lookup_insert_ne.
Qed.

(** X19. In [parse_response_dict] an address maps to the value of its
    last pair in the response: when a response repeats an address, the
    later value replaces the earlier one, and an address without a pair
    is absent. *)
Theorem dict_keeps_last_value (resp a : string) :
  parse_response_dict resp !! a
  = snd <$> last (List.filter (fun kv => String.eqb (fst kv) a) (parse_response resp)).
Proof.
  unfold parse_response_dict. rewrite foldl_insert_last.
  destruct (last _); reflexivity.
Qed.

(** ** The tooltip box *)

Ltac place_cases :=
  repeat match goal with
         | |- context [?a <? ?b] => destruct (Z.ltb_spec a b)
         | |- context [?a <=? ?b] => destruct (Z.leb_spec a b)
         end; cbn [andb negb fst snd].

(** X20. Wherever the cursor is and whatever the canvas size, the box
    [show] places keeps the size of its text plus padding, and its left
    and top edges are not left of or above the canvas. *)
Theorem tooltip_box_keeps_size (cursor_x cursor_y text_w total_h pad cw ch : Z) :
  let '(x0, y0, x1, y1) :=
    CanvasTooltip.place cursor_x cursor_y text_w total_h pad cw ch in
  x1 - x0 = text_w + pad * 2 /\ y1 - y0 = total_h + pad * 2 /\ 0 <= x0 /\ 0 <= y0.
Proof.
  unfold CanvasTooltip.place, TOOLTIP_OFFSET. place_cases; lia.
Qed.

(** X21. When the box is not larger than the canvas it lies within the
    canvas, wherever the cursor is. *)
Theorem tooltip_box_on_canvas (cursor_x cursor_y text_w total_h pad cw ch : Z) :
  text_w + pad * 2 <= cw ->
  total_h + pad * 2 <= ch ->
  let '(x0, y0, x1, y1) :=
    CanvasTooltip.place cursor_x cursor_y text_w total_h pad cw ch in
  0 <= x0 /\ x1 <= cw /\ 0 <= y0 /\ y1 <= ch.
Proof.
  intros Hw Hh. unfold CanvasTooltip.place, TOOLTIP_OFFSET. place_cases; lia.
Qed.

Lemma tooltip_box_on_canvas_witness :
  let '(x0, y0, x1, y1) := CanvasTooltip.place 795 5 120 48 6 800 600 in
  0 <= x0 /\ x1 <= 800 /\ 0 <= y0 /\ y1 <= 600.
Proof. apply (tooltip_box_on_canvas 795 5 120 48 6 800 600); lia. Defined.

(** ** Rendering before the first sample *)

Lemma no_samples_no_times (chs : list (string * Channel)) :
  Forall (fun nc => has_samples nc = false) chs ->
  flat_map (fun nc => Deque.items (xs (snd nc))) chs = [].
Proof.
  induction 1 as [|nc chs Hnc _ IH]; [reflexivity|].
  cbn [flat_map]. rewrite IH. unfold has_samples in Hnc.
  destruct (Deque.items (xs (snd nc))); [reflexivity|discriminate].
Qed.

(** X22. While no channel has a sample, a rendering pass on a canvas of
    at least 10 by 10 that finds the lock free draws the border and one
    empty text item and nothing else: no legend, although channels may be
    registered; it assigns no color and changes nothing but the canvas. *)
Theorem render_without_samples `{FontMetrics} (w h : Z) (s : PollSerial) :
  channels_lock s = false ->
  10 <= w -> 10 <= h ->
  Forall (fun nc => has_samples nc = false) (channels s) ->
  update_canvas w h s
  = Ok tt (set_canvas [Rectangle 70 20 (w - 20) (h - 70) "" "white";
                       Text (70 - 60) (h - 70 + 18) "nw" "" "white" grid_font] s).
Proof.
  intros Hfree Hw Hh Hnone. unfold update_canvas. unfold bind at 1, modify.
  destruct (Z.ltb_spec w 10); [lia|]. destruct (Z.ltb_spec h 10); [lia|].
  cbn [orb]. unfold bind at 1. rewrite canvas_create. unfold with_lock.
  cbn [channels_lock set_canvas]. rewrite Hfree. unfold bind at 1, get.
  cbn [channels set_lock set_canvas].
  rewrite (no_samples_no_times _ Hnone). cbn [Py.min_ints]. rewrite canvas_create.
  destruct s. cbn in Hfree. subst. reflexivity.
Qed.

Lemma render_without_samples_witness :
  @update_canvas fixed_pitch 800 600 fresh_poller
  = Ok tt (set_canvas [Rectangle 70 20 (800 - 20) (600 - 70) "" "white";
                       Text (70 - 60) (600 - 70 + 18) "nw" "" "white" grid_font]
             fresh_poller).
Proof.
  apply (@render_without_samples fixed_pitch); [reflexivity|lia|lia|].
  repeat constructor.
Defined.

(** ** The lines of the tooltip *)

Lemma text_items_length tx cur_y text_h lines :
  length (CanvasTooltip.text_items tx cur_y text_h lines) = length lines.
Proof.
  revert cur_y. induction lines as [|[l c] lines IH]; intros cur_y; [reflexivity|].
  cbn. by rewrite IH.
Qed.

(** X23. [show] draws one text item for the time line, when it is not
    empty, and one for every channel line that has a color; a channel
    line beyond the colors, or a color beyond the lines, is dropped. With
    nothing to draw the tooltip is hidden: no background and no bounds. *)
Theorem tooltip_draws_paired_lines `{FontMetrics} (cursor_x cursor_y : Z)
    (time_line : string) (channel_lines channel_colors : list string)
    (bg : string) (pad cw ch : Z) (t : CanvasTooltip.Tooltip) :
  let t' := CanvasTooltip.show cursor_x cursor_y time_line channel_lines channel_colors
              bg pad cw ch t in
  let n := ((if String.eqb time_line "" then 0 else 1) +
            Nat.min (length channel_lines) (length channel_colors))%nat in
  length (CanvasTooltip.text_ids t') = n /\
  (n = 0%nat -> CanvasTooltip.bg_id t' = None /\ CanvasTooltip.bounds t' = None) /\
  (n <> 0%nat -> CanvasTooltip.bg_id t' <> None /\ CanvasTooltip.bounds t' <> None).
Proof.
  cbn zeta. unfold CanvasTooltip.show.
  set (lines := (if String.eqb time_line "" then [] else [(time_line, "white")]) ++
                combine channel_lines channel_colors).
  assert (Hlen : length lines
                 = ((if String.eqb time_line "" then 0 else 1) +
                    Nat.min (length channel_lines) (length channel_colors))%nat).
  { unfold lines. rewrite length_app, length_combine.
    by destruct (String.eqb time_line ""). }
  rewrite <- Hlen. clearbody lines. destruct lines as [|l rest].
  - cbn. repeat split; congruence.
  - cbn [map Py.max_ints].
    destruct (CanvasTooltip.place _ _ _ _ _ _ _) as [[[x0 y0] x1] y1].
    cbn [CanvasTooltip.text_ids CanvasTooltip.bg_id CanvasTooltip.bounds].
    rewrite text_items_length. split; [reflexivity|]. split; [discriminate|].
    intros _. split; discriminate.
Qed.

(** ** The mouse handler *)

Section MouseLock.

Lemma neutral_tooltip_lines x left right chs ls cs :
  lock_neutral (tooltip_lines x left right chs ls cs).
Proof.
  revert ls cs. induction chs as [|[name ch] chs IH]; intros ls cs; cbn [tooltip_lines].
  - apply neutral_ret.
  - destruct (Deque.items (xs ch)) as [|x0 l]; [apply IH|].
    destruct (Deque.items (vals ch) !! _); [|apply neutral_ret].
    apply neutral_bind; [apply neutral_assign_color|]. intros color. apply IH.
Qed.

Lemma neutral_tooltip_content x left right : lock_neutral (tooltip_content x left right).
Proof.
  unfold tooltip_content. apply neutral_bind; [apply neutral_get|]. intros s.
  destruct (Py.min_ints _); [|apply neutral_ret].
  destruct (Py.max_ints _); [|apply neutral_ret].
  destruct (right - left =? 0); [apply neutral_ret|].
  apply neutral_bind; [apply neutral_tooltip_lines|].
  intros [e|[ls cs]]; apply neutral_ret.
Qed.

Lemma with_lock_keeps_lock {A} (body : M A) s :
  lock_neutral body ->
  channels_lock (state_of (with_lock body s)) = channels_lock s.
Proof.
  intros Hb. destruct (channels_lock s) eqn:Hl.
  - unfold with_lock. by rewrite Hl.
  - by destruct (with_lock_neutral body s Hb Hl).
Qed.

Lemma keeps_tooltip_lines (P : PollSerial -> Prop) x left right chs ls cs :
  (forall name, keeps P (assign_color name)) ->
  keeps P (tooltip_lines x left right chs ls cs).
Proof.
  intros Hc. revert ls cs.
  induction chs as [|[name ch] chs IH]; intros ls cs; cbn [tooltip_lines].
  - apply keeps_ret.
  - destruct (Deque.items (xs ch)) as [|x0 l]; [apply IH|].
    destruct (Deque.items (vals ch) !! _); [|apply keeps_ret].
    apply keeps_bind; [apply Hc|]. intros color. apply IH.
Qed.

Lemma keeps_tooltip_content (P : PollSerial -> Prop) x left right :
  (forall name, keeps P (assign_color name)) ->
  keeps P (tooltip_content x left right).
Proof.
  intros Hc. unfold tooltip_content. apply keeps_bind_get. intros s Hs.
  destruct (Py.min_ints _); [|apply keeps_ret].
  destruct (Py.max_ints _); [|apply keeps_ret].
  destruct (right - left =? 0); [apply keeps_ret|].
  apply keeps_bind; [by apply keeps_tooltip_lines|].
  intros [e|[ls cs]]; apply keeps_ret.
Qed.

Lemma same_data_refl s : same_data s s.
Proof. repeat split. Qed.

Lemma contains_shown t x y :
  (match CanvasTooltip.bounds t with Some _ => true | None => false end)
  && CanvasTooltip.contains t x y = CanvasTooltip.contains t x y.
Proof. unfold CanvasTooltip.contains. by destruct (CanvasTooltip.bounds t). Qed.

End MouseLock.

Section MouseHandler.
Context `{FontMetrics}.

(** X24. A motion event leaves the data of the poller as it is: the
    registry with its samples, the log, the clock, the flags, the thread
    and the transport trace are after the handler what they were before,
    and the lock is held after it exactly when it was held before,
    however the handler ends. What the handler writes is the colors and
    the items of the tooltip. *)
Theorem mouse_reads_the_data_only (x y w h : Z) (g : Gui) :
  same_data (poller g) (poller (gui_of (on_mouse_move x y w h g))) /\
  channels_lock (poller (gui_of (on_mouse_move x y w h g))) = channels_lock (poller g).
Proof.
  unfold on_mouse_move.
  destruct (in_plot_area x y w h); cbn [negb];
    [|split; [apply same_data_refl|reflexivity]].
  destruct (_ && CanvasTooltip.contains (tooltip g) x y);
    [split; [apply same_data_refl|reflexivity]|].
  set (body := with_lock (tooltip_content x 70 (w - 20))).
  assert (Hk : same_data (poller g) (state_of (body (poller g)))).
  { apply (keeps_with_lock (fun s' => same_data (poller g) s')).
    - intros b s' Hs'. exact Hs'.
    - apply keeps_tooltip_content. intros name s' Hs'.
      unfold assign_color, bind, get. destruct (colors s' !! name); exact Hs'.
    - apply same_data_refl. }
  assert (Hl : channels_lock (state_of (body (poller g))) = channels_lock (poller g))
    by apply with_lock_keeps_lock, neutral_tooltip_content.
  destruct (body (poller g)) as [[e|[[[tl ls] cs]|]] s'|e s'|s']; cbn [state_of] in *;
    try destruct ls; cbn [gui_of poller]; tauto.
Qed.

(** X25. The handler waits for the lock exactly when the lock is held
    and the cursor is in the plot area and not inside the tooltip shown:
    outside the plot area, and inside the tooltip, it returns without
    asking for the lock, and with the lock free it never waits. *)
Theorem mouse_waits_iff_lock_held (x y w h : Z) (g : Gui) :
  (exists g', on_mouse_move x y w h g = Waiting g') <->
  in_plot_area x y w h = true /\
  CanvasTooltip.contains (tooltip g) x y = false /\
  channels_lock (poller g) = true.
Proof.
  unfold on_mouse_move.
  destruct (in_plot_area x y w h); cbn [negb].
  2:{ split; [intros [g' Hg]; discriminate|intros (Hd & _); discriminate]. }
  rewrite !contains_shown.
  destruct (CanvasTooltip.contains (tooltip g) x y) eqn:Hc.
  { split; [intros [g' Hg]; discriminate|intros (_ & Hd & _); discriminate]. }
  cbn [negb]. destruct (channels_lock (poller g)) eqn:Hl.
  - unfold with_lock. rewrite Hl. split; [done|]. intros _. eexists. reflexivity.
  - destruct (with_lock_neutral (tooltip_content x 70 (w - 20)) (poller g)
                (neutral_tooltip_content x 70 (w - 20)) Hl) as [Hnb _].
    split; [|intros (_ & _ & Hd); discriminate].
    intros [g' Hg].
    destruct (with_lock (tooltip_content x 70 (w - 20)) (poller g))
      as [[e|[[[tl ls] cs]|]] s'|e s'|s']; try discriminate.
    + destruct ls; discriminate.
    + by destruct (Hnb s').
Qed.

Lemma some_samples_times (chs : list (string * Channel)) :
  Exists (fun nc => has_samples nc = true) chs ->
  exists a b,
    Py.min_ints (flat_map (fun nc => Deque.items (xs (snd nc))) chs) = Some a /\
    Py.max_ints (flat_map (fun nc => Deque.items (xs (snd nc))) chs) = Some b.
Proof.
  intros Hex.
  assert (flat_map (fun nc => Deque.items (xs (snd nc))) chs <> []) as Hne.
  { induction Hex as [nc chs Hnc|nc chs _ IH]; cbn [flat_map].
    - unfold has_samples in Hnc. by destruct (Deque.items (xs (snd nc))).
    - intros Happ. apply app_eq_nil in Happ as [_ Hnil]. by apply IH. }
  destruct (flat_map _ chs) as [|z l]; [done|]. eexists _, _. split; reflexivity.
Qed.

(** X26. On a canvas 90 wide the plot area has no width, and a motion
    event on its one column, with the lock free, a sample in some channel
    and the cursor not inside the tooltip, raises ZeroDivisionError: the
    handler divides by [right - left]. The lock is free again afterwards,
    the poller unchanged, and no tooltip is shown. *)
Theorem mouse_divides_by_plot_width (x y h : Z) (g : Gui) :
  in_plot_area x y 90 h = true ->
  CanvasTooltip.contains (tooltip g) x y = false ->
  channels_lock (poller g) = false ->
  Exists (fun nc => has_samples nc = true) (channels (poller g)) ->
  exists t',
    on_mouse_move x y 90 h g = Failed ZeroDivisionError (mkGui (poller g) t') /\
    CanvasTooltip.bounds t' = None.
Proof.
  intros Hplot Hc Hl Hex. unfold on_mouse_move. rewrite Hplot. cbn [negb].
  rewrite !contains_shown, Hc. cbn [negb]. unfold with_lock. rewrite Hl.
  unfold tooltip_content. unfold bind at 1, get. cbn [channels set_lock].
  destruct (some_samples_times _ Hex) as (a & b & -> & ->).
  change (90 - 20 - 70 =? 0) with true. cbn [ret].
  eexists. split.
  - f_equal. f_equal. destruct (poller g). cbn in Hl. by subst.
  - rewrite andb_true_r.
    destruct (CanvasTooltip.bounds (tooltip g)) eqn:Hb; [reflexivity|exact Hb].
Qed.

Lemma nearest_from_bound x_val l i best k :
  (best < i)%nat -> (nearest_from x_val l i best k < i + length l)%nat.
Proof.
  revert i best k. induction l as [|xv l IH]; intros i best k Hb; cbn [nearest_from length].
  - lia.
  - destruct (PrimFloat.ltb _ k).
    + specialize (IH (S i) i (PrimFloat.abs (Py.float_of_int xv - x_val)%float)). lia.
    + specialize (IH (S i) best k). lia.
Qed.

Lemma cursor_index_bound x left right l :
  l <> [] -> (cursor_index x left right l < length l)%nat.
Proof.
  intros Hne. destruct l as [|x0 l]; [done|].
  unfold cursor_index. cbn [Py.min_ints Py.max_ints length].
  destruct (_ =? _); [lia|]. unfold nearest_index.
  match goal with |- (nearest_from ?v l 1 0 ?k < _)%nat =>
    pose proof (nearest_from_bound v l 1 0 k) end. lia.
Qed.

(** The loop over the channels, when the buffers are aligned: one line
    and one color for every channel with samples. *)
Lemma tooltip_lines_ok x left right chs :
  Forall (fun nc => channel_wf MAX_POINTS (snd nc)) chs ->
  forall ls cs s, exists new newc s',
    tooltip_lines x left right chs ls cs s = Ok (inr (ls ++ new, cs ++ newc)) s' /\
    length new = length (List.filter has_samples chs) /\
    length newc = length new.
Proof.
  induction 1 as [|[name ch] chs Hwf _ IH]; intros ls cs s.
  - exists [], [], s. rewrite !app_nil_r. repeat split.
  - cbn [tooltip_lines List.filter]. unfold has_samples at 1. cbn [snd] in *.
    destruct (Deque.items (xs ch)) as [|x0 l] eqn:Hxs; [apply IH|].
    destruct Hwf as (_ & _ & Lxy & Lyv & _). unfold Deque.len in *.
    assert (is_Some (Deque.items (vals ch) !! cursor_index x left right (x0 :: l))) as [v Hv].
    { apply lookup_lt_is_Some. rewrite <- Lyv, <- Lxy, Hxs.
      by apply cursor_index_bound. }
    rewrite Hv. destruct (assign_color_total name s) as (c & s1 & Hc & _).
    unfold bind at 1. rewrite Hc.
    destruct (IH (ls ++ [name +:+ ": " +:+ format_general 3 v]) (cs ++ [c]) s1)
      as (new & newc & s' & Hrun & Hn & Hnc).
    exists ((name +:+ ": " +:+ format_general 3 v) :: new), (c :: newc), s'.
    rewrite Hrun, <- !app_assoc. cbn [app length]. repeat split; congruence.
Qed.

(** X27. With the lock free, the canvas not 90 wide, a sample in some
    channel and the cursor in the plot area but not inside the tooltip, a
    motion event on a poller whose buffers are aligned returns and shows
    a tooltip of one time line and one line for every channel with
    samples, and the tooltip holds the cursor. *)
Theorem mouse_shows_tooltip (x y w h : Z) (g : Gui) :
  registry_wf (poller g) ->
  (forall s, 0 <= measure CanvasTooltip.tooltip_font s) ->
  0 <= linespace CanvasTooltip.tooltip_font ->
  w <> 90 ->
  in_plot_area x y w h = true ->
  CanvasTooltip.contains (tooltip g) x y = false ->
  channels_lock (poller g) = false ->
  Exists (fun nc => has_samples nc = true) (channels (poller g)) ->
  exists g',
    on_mouse_move x y w h g = Returned g' /\
    length (CanvasTooltip.text_ids (tooltip g'))
    = S (length (List.filter has_samples (channels (poller g)))) /\
    CanvasTooltip.contains (tooltip g') x y = true.
Proof.
  intros Hwf Hm Hls Hw Hplot Hc Hl Hex. unfold on_mouse_move. rewrite Hplot. cbn [negb].
  rewrite !contains_shown, Hc. cbn [negb]. unfold with_lock. rewrite Hl.
  unfold tooltip_content. unfold bind at 1, get. cbn [channels set_lock].
  destruct (some_samples_times _ Hex) as (a & b & -> & ->).
  destruct (Z.eqb_spec (w - 20 - 70) 0) as [?|_]; [lia|].
  destruct (tooltip_lines_ok x 70 (w - 20) (channels (poller g)) Hwf [] []
              (set_lock true (poller g))) as (new & newc & s' & Hrun & Hn & Hnc).
  unfold bind at 1. rewrite Hrun. cbn [app ret].
  assert (new <> []) as Hne.
  { intros ->. cbn in Hn. clear -Hn Hex.
    induction Hex as [nc chs Hnc|nc chs _ IH]; cbn [List.filter] in Hn.
    - rewrite Hnc in Hn. discriminate.
    - destruct (has_samples nc); [discriminate|by apply IH]. }
  destruct new as [|l0 new]; [done|]. eexists. split; [reflexivity|].
  cbn [tooltip]. unfold CanvasTooltip.show.
  match goal with |- context [String.eqb ?tl ""] =>
    replace (String.eqb tl "") with false by (by rewrite append_cons) end.
  destruct newc as [|c0 newc]; [discriminate|].
  cbn [app combine map Py.max_ints].
  set (text_w := fold_left Z.max _ _).
  assert (0 <= text_w) as Htw.
  { subst text_w. etransitivity; [|apply fold_max_ge]. apply Hm. }
  set (total_h := linespace CanvasTooltip.tooltip_font * _).
  assert (0 <= total_h) as Hth
    by (subst total_h; apply Z.mul_nonneg_nonneg; [exact Hls|apply Nat2Z.is_nonneg]).
  unfold in_plot_area in Hplot. apply negb_true_iff in Hplot.
  apply orb_false_iff in Hplot as [Hplot Hy2]. apply orb_false_iff in Hplot as [Hplot Hy1].
  apply orb_false_iff in Hplot as [Hx1 Hx2].
  apply Z.ltb_ge in Hx1, Hx2, Hy1, Hy2.
  pose proof (place_contains x y text_w total_h 6 w h) as Hplace.
  destruct (CanvasTooltip.place x y text_w total_h 6 w h) as [[[bx0 by0] bx1] by1].
  destruct Hplace as [[? ?] [? ?]]; try lia.
  cbn [CanvasTooltip.text_ids]. rewrite text_items_length. split.
  - cbn [length]. rewrite length_combine. cbn [length] in Hn, Hnc. lia.
  - unfold CanvasTooltip.contains. cbn [CanvasTooltip.bounds].
    repeat (apply andb_true_intro; split); by apply Z.leb_le.
Qed.


Lemma in_plot_on_canvas x y w h :
  in_plot_area x y w h = true -> 0 <= x <= w /\ 0 <= y <= h.
Proof.
  unfold in_plot_area. intros Hplot. apply negb_true_iff in Hplot.
  apply orb_false_iff in Hplot as [Hplot Hy2]. apply orb_false_iff in Hplot as [Hplot Hy1].
  apply orb_false_iff in Hplot as [Hx1 Hx2].
  apply Z.ltb_ge in Hx1, Hx2, Hy1, Hy2. lia.
Qed.

(** C3. Whenever the tooltip is shown, the cursor lies within its
    rectangle. [show] is called by the mouse handler alone, behind the
    guard that the cursor is in the plot area. For a cursor in the plot
    area and at least one line, the rectangle [show] computes holds the
    cursor; and after any motion event the handler returns from, whatever
    the state of the poller and of the tooltip before, a tooltip that has
    bounds holds the cursor of that event. The font measurements are not
    negative. *)
Theorem C3_tooltip_holds_cursor :
  (forall s, 0 <= measure CanvasTooltip.tooltip_font s) ->
  0 <= linespace CanvasTooltip.tooltip_font ->
  (forall cursor_x cursor_y time_line channel_lines channel_colors bg pad cw ch t,
     4 <= pad ->
     in_plot_area cursor_x cursor_y cw ch = true ->
     time_line <> "" \/ combine channel_lines channel_colors <> [] ->
     exists x0 y0 x1 y1,
       CanvasTooltip.bounds
         (CanvasTooltip.show cursor_x cursor_y time_line channel_lines channel_colors
            bg pad cw ch t)
       = Some (x0, y0, x1, y1) /\
       x0 <= cursor_x <= x1 /\ y0 <= cursor_y <= y1) /\
  (forall x y w h g g' x0 y0 x1 y1,
     on_mouse_move x y w h g = Returned g' ->
     CanvasTooltip.bounds (tooltip g') = Some (x0, y0, x1, y1) ->
     x0 <= x <= x1 /\ y0 <= y <= y1).
Proof.
  intros Hm Hls.
  assert (forall cursor_x cursor_y time_line channel_lines channel_colors bg pad cw ch t,
            4 <= pad ->
            in_plot_area cursor_x cursor_y cw ch = true ->
            time_line <> "" \/ combine channel_lines channel_colors <> [] ->
            exists x0 y0 x1 y1,
              CanvasTooltip.bounds
                (CanvasTooltip.show cursor_x cursor_y time_line channel_lines channel_colors
                   bg pad cw ch t)
              = Some (x0, y0, x1, y1) /\
              x0 <= cursor_x <= x1 /\ y0 <= cursor_y <= y1) as Hshow.
  { intros cursor_x cursor_y time_line channel_lines channel_colors bg pad cw ch t
      Hpad Hplot Hlines.
    destruct (in_plot_on_canvas _ _ _ _ Hplot) as [Hx Hy].
    by apply show_holds_cursor. }
  split; [exact Hshow|].
  intros x y w h g g' x0 y0 x1 y1. unfold on_mouse_move.
  destruct (in_plot_area x y w h) eqn:Hplot; cbn [negb].
  2:{ intros [= <-]. discriminate. }
  rewrite !contains_shown.
  destruct (CanvasTooltip.contains (tooltip g) x y) eqn:Hc.
  { intros [= <-] Hb. unfold CanvasTooltip.contains in Hc. rewrite Hb in Hc.
    apply andb_prop in Hc as [Hc Hy1]. apply andb_prop in Hc as [Hc Hy0].
    apply andb_prop in Hc as [Hx0 Hx1].
    apply Z.leb_le in Hx0, Hx1, Hy0, Hy1. lia. }
  cbn [negb]. rewrite andb_true_r.
  set (t' := if match CanvasTooltip.bounds (tooltip g) with Some _ => true | None => false end
             then CanvasTooltip.hide (tooltip g) else tooltip g).
  assert (CanvasTooltip.bounds t' = None) as Hnone.
  { subst t'. destruct (CanvasTooltip.bounds (tooltip g)) eqn:Hb; [reflexivity|exact Hb]. }
  destruct (with_lock (tooltip_content x 70 (w - 20)) (poller g))
    as [[e|[[[tl ls] cs]|]] s'|e s'|s']; try discriminate.
  - destruct ls as [|l0 ls].
    + intros [= <-]. cbn [tooltip]. congruence.
    + intros [= <-]. cbn [tooltip]. intros Hb.
      destruct (String.eqb_spec tl "") as [->|Htl];
        [destruct (combine (l0 :: ls) cs) as [|p ps] eqn:Hcomb|].
      * unfold CanvasTooltip.show in Hb. rewrite Hcomb in Hb. discriminate.
      * destruct (Hshow x y "" (l0 :: ls) cs "#111111" 6 w h t')
          as (a0 & b0 & a1 & b1 & Hb' & Hin); [lia|exact Hplot|right; congruence|].
        rewrite Hb' in Hb. by injection Hb as <- <- <- <-.
      * destruct (Hshow x y tl (l0 :: ls) cs "#111111" 6 w h t')
          as (a0 & b0 & a1 & b1 & Hb' & Hin); [lia|exact Hplot|by left|].
        rewrite Hb' in Hb. by injection Hb as <- <- <- <-.
  - intros [= <-]. cbn [tooltip]. congruence.
Qed.

End MouseHandler.

Lemma C3_witness :
  exists x0 y0 x1 y1,
    CanvasTooltip.bounds
      (@CanvasTooltip.show fixed_pitch 770 500 "Time: 1.0 s" ["A: 1"] ["#e6194b"]
         "#111111" 6 800 600 (CanvasTooltip.mkTooltip None [] None))
    = Some (x0, y0, x1, y1) /\
    x0 <= 770 <= x1 /\ y0 <= 500 <= y1.
Proof.
  destruct (@C3_tooltip_holds_cursor fixed_pitch) as [Hshow _].
  - intros s. change (0 <= 10 * 6 / 10 * Z.of_nat (String.length s)).
    apply Z.mul_nonneg_nonneg; [discriminate | apply Nat2Z.is_nonneg].
  - discriminate.
  - apply Hshow; [lia|reflexivity|left; discriminate].
Defined.

Lemma sample_run_wf : registry_wf sample_run.
Proof.
  unfold sample_run. apply keeps_poll_cycle, keeps_start, registry_wf_init.
Qed.

Lemma mouse_divides_by_plot_width_witness :
  exists t',
    @on_mouse_move fixed_pitch 70 30 90 600 sample_gui
    = Failed ZeroDivisionError (mkGui (poller sample_gui) t') /\
    CanvasTooltip.bounds t' = None.
Proof.
  apply (@mouse_divides_by_plot_width fixed_pitch 70 30 600 sample_gui);
    [reflexivity|reflexivity|reflexivity|].
  apply Exists_cons_hd. reflexivity.
Defined.

Lemma mouse_shows_tooltip_witness :
  exists g',
    @on_mouse_move fixed_pitch 400 300 800 600 sample_gui = Returned g' /\
    length (CanvasTooltip.text_ids (tooltip g'))
    = S (length (List.filter has_samples (channels (poller sample_gui)))) /\
    CanvasTooltip.contains (tooltip g') 400 300 = true.
Proof.
  apply (@mouse_shows_tooltip fixed_pitch 400 300 800 600 sample_gui).
  - exact sample_run_wf.
  - intros s. change (0 <= 10 * 6 / 10 * Z.of_nat (String.length s)).
    apply Z.mul_nonneg_nonneg; [discriminate|apply Nat2Z.is_nonneg].
  - discriminate.
  - lia.
  - reflexivity.
  - reflexivity.
  - reflexivity.
  - apply Exists_cons_hd. reflexivity.
Defined.

(** ** The channels fill together *)

Section ChannelsFillTogether.
Context `{FontMetrics}.






















End ChannelsFillTogether.

